(** * bmp2map: 8-bit BMP to tile-map converter

    Shallow embedding of [src/roms/ppu/bkg/bmp2map.cpp] and the properties
    of its header reader, row extraction and symbol remapping.

    The program is C++ on a 32-bit [int].  The embedding keeps the program's
    own structure: [hiread], then [main] as the header reads (lines 36-40),
    the format check (line 41), the row copy (lines 42-54), the remapping
    pass (lines 55-58) and the final [write] (lines 59-61).  The file I/O
    around it is outside the model: [main] takes the bytes of the input file
    and returns what is written to the output file.

    Integers are [Z].  Arithmetic on [unsigned int] wraps modulo [2^32] and
    the conversions between [int] and [unsigned int] are two's complement,
    both written out where [hiread] uses them.  Arithmetic on [int] must
    stay within [int]: an overflow is undefined in C++.

    Runs of the C++ program that leave defined behaviour (an access outside
    an allocated block, a read of a byte never written, a division by zero,
    a signed overflow) are results [Fault _] of the model.  A [Fault] is not
    an error the program reports: the program checks nothing but the format
    and has exactly one reporting exit, line 41, which is the result
    [Ok NeedsColors]. *)

From Stdlib Require Import ZArith Lia Bool.
From Stdlib Require Import Strings.Byte.
From stdpp Require Import base tactics option list.

Local Open Scope Z_scope.

(** ** 32-bit integers *)

Module Int32.

Definition int_min : Z := - 2 ^ 31.
Definition int_max : Z := 2 ^ 31 - 1.

Definition in_range (z : Z) : bool := (int_min <=? z) && (z <=? int_max).

(** Conversion [int] to [unsigned int]. *)
Definition to_unsigned (z : Z) : Z := z mod 2 ^ 32.

(** Conversion [unsigned int] to [int] (two's complement). *)
Definition to_signed (u : Z) : Z :=
  let r := u mod 2 ^ 32 in if r <? 2 ^ 31 then r else r - 2 ^ 32.

End Int32.
Import Int32.

(** ** Results of a run *)

Inductive fault : Type :=
| OutOfBounds     (* access outside the allocated block *)
| Uninitialised   (* read of a byte of a malloc block never written *)
| DivideByZero    (* integer division by zero *)
| Overflow        (* signed int overflow *)
| ShiftCount.     (* shift by 32 bits or more *)

Inductive exec (A : Type) : Type :=
| Ok (a : A)
| Fault (f : fault).
Arguments Ok {A} a.
Arguments Fault {A} f.

#[global] Instance exec_ret : MRet exec := fun A a => Ok a.

#[global] Instance exec_bind : MBind exec := fun A B k m =>
  match m with
  | Ok a => k a
  | Fault f => Fault f
  end.

(** ** Arithmetic on [int] *)

Definition checked (z : Z) : exec Z :=
  if in_range z then Ok z else Fault Overflow.

Definition int_add (a b : Z) : exec Z := checked (a + b).
Definition int_sub (a b : Z) : exec Z := checked (a - b).
Definition int_mul (a b : Z) : exec Z := checked (a * b).

(** C++ division truncates toward zero. *)
Definition int_div (a b : Z) : exec Z :=
  if b =? 0 then Fault DivideByZero else checked (Z.quot a b).

(** [u << n] on [unsigned int]. *)
Definition shl_u32 (u n : Z) : exec Z :=
  if (0 <=? n) && (n <? 32) then Ok (Z.shiftl u n mod 2 ^ 32)
  else Fault ShiftCount.

(** ** Memory blocks *)

Definition byte_val (b : byte) : Z := Z.of_N (Byte.to_N b).

(** [contents[idx]] on the input file's bytes. *)
Definition load (contents : list byte) (idx : Z) : exec byte :=
  if idx <? 0 then Fault OutOfBounds
  else match contents !! Z.to_nat idx with
       | Some b => Ok b
       | None => Fault OutOfBounds
       end.

(** A block from [malloc]: its cells hold nothing until written. *)
Abbreviation block := (list (option byte)).

(** [malloc(n)] for an [int n]: a block of [n] cells.  A negative [n]
    becomes a [size_t] no allocation can satisfy and [malloc] returns the
    null pointer, a block with no cell.  The program does not look at what
    [malloc] returns: it goes on, and touches the block only where a loop
    reaches a cell. *)
Definition malloc (n : Z) : block := replicate (Z.to_nat n) None.

(** [a[j] = v] *)
Definition store (a : block) (j : Z) (v : byte) : exec block :=
  if (0 <=? j) && (j <? Z.of_nat (length a))
  then Ok (<[Z.to_nat j := Some v]> a)
  else Fault OutOfBounds.

(** [a[i]] *)
Definition fetch (a : block) (i : Z) : exec byte :=
  if i <? 0 then Fault OutOfBounds
  else match a !! Z.to_nat i with
       | Some (Some b) => Ok b
       | Some None => Fault Uninitialised
       | None => Fault OutOfBounds
       end.

(** ** [hiread] (lines 10-14)

    [for(int i = 0, k = 0; i < length; i++)
       k += unsigned int(contents[offset+i]) << (8 * i);
     return k;]

    The loop runs [length] times ([n] counts the iterations left).  The
    addition is done on [unsigned int] and the sum converted back to the
    [int] accumulator [k]. *)

Fixpoint hiread_loop (n : nat) (contents : list byte) (offset i k : Z)
  : exec Z :=
  match n with
  | O => Ok k
  | S n' =>
      idx ← int_add offset i;
      b ← load contents idx;
      sh ← int_mul 8 i;
      v ← shl_u32 (byte_val b) sh;
      let k' := to_signed (to_unsigned k + v) in
      i' ← int_add i 1;
      hiread_loop n' contents offset i' k'
  end.

Definition hiread (contents : list byte) (offset length : Z) : exec Z :=
  hiread_loop (Z.to_nat length) contents offset 0 0.

(** ** [main] *)

Record header : Type := Header {
  paintoffset : Z;
  width : Z;
  height : Z;
  bitcount : Z;
  bytebuffer : Z
}.

(** Lines 36-40. *)
Definition read_header (filecontents : list byte) : exec header :=
  paintoffset ← hiread filecontents 0xa 4;
  width ← hiread filecontents 0x12 4;
  height ← hiread filecontents 0x16 4;
  bitcount ← hiread filecontents 0x1c 2;
  bytebuffer ← hiread filecontents 0x22 4;
  Ok (Header paintoffset width height bitcount bytebuffer).

(** Lines 49-51: [for(int w = 0; w < width; w++)
      { outputcontents[j] = filecontents[offset+w]; j++; }] *)
Fixpoint copy_row (n : nat) (filecontents : list byte) (offset w : Z)
    (outputcontents : block) (j : Z) : exec (block * Z) :=
  match n with
  | O => Ok (outputcontents, j)
  | S n' =>
      idx ← int_add offset w;
      b ← load filecontents idx;
      outputcontents' ← store outputcontents j b;
      j' ← int_add j 1;
      w' ← int_add w 1;
      copy_row n' filecontents offset w' outputcontents' j'
  end.

(** Lines 47-53: [for(int h = 1, offset = ...; h <= height;
      h++, offset -= (width + wastedpixelsperline)) { ... }] *)
Fixpoint copy_rows (n : nat) (filecontents : list byte)
    (width wastedpixelsperline h offset : Z)
    (outputcontents : block) (j : Z) : exec (block * Z) :=
  match n with
  | O => Ok (outputcontents, j)
  | S n' =>
      '(outputcontents', j') ←
        copy_row (Z.to_nat width) filecontents offset 0 outputcontents j;
      h' ← int_add h 1;
      step ← int_add width wastedpixelsperline;
      offset' ← int_sub offset step;
      copy_rows n' filecontents width wastedpixelsperline h' offset'
        outputcontents' j'
  end.

(** Line 44. *)
Definition wasted_pixels (hdr : header) : exec Z :=
  wh ← int_mul (width hdr) (height hdr);
  d ← int_sub (bytebuffer hdr) wh;
  int_div d (height hdr).

(** Line 47, the initial [offset]. *)
Definition first_offset (hdr : header) (wastedpixelsperline : Z) : exec Z :=
  let pixelslen := bytebuffer hdr in
  a ← int_sub pixelslen (width hdr);
  b ← int_add a (paintoffset hdr);
  int_sub b wastedpixelsperline.

(** Lines 42-54: the copy of the pixel rows.  Returns [outputcontents] and
    [outputlen]. *)
Definition extract (filecontents : list byte) (hdr : header)
  : exec (block * Z) :=
  outputlen ← int_mul (height hdr) (width hdr);
  wastedpixelsperline ← wasted_pixels hdr;
  let outputcontents := malloc outputlen in
  offset ← first_offset hdr wastedpixelsperline;
  '(outputcontents', _) ←
    copy_rows (Z.to_nat (height hdr)) filecontents (width hdr)
      wastedpixelsperline 1 offset outputcontents 0;
  Ok (outputcontents', outputlen).

(** Lines 56-58, on one byte. *)
Definition symbol (b : byte) : byte :=
  if Byte.eqb b xff then x00
  else if Byte.eqb b x00 then x01
  else x02.

(** Lines 55-58: [for(int i = 0; i < outputlen; i++) ...] *)
Fixpoint remap (n : nat) (i : Z) (outputcontents : block) : exec block :=
  match n with
  | O => Ok outputcontents
  | S n' =>
      b ← fetch outputcontents i;
      outputcontents' ← store outputcontents i (symbol b);
      i' ← int_add i 1;
      remap n' i' outputcontents'
  end.

(** Line 61: [write(outputhandle, outputcontents, outputlen)], the bytes
    that reach the file, cell by cell ([n] is the count; with a negative
    [outputlen] the block has no cell and nothing reaches the file). *)
Fixpoint write (n : nat) (outputcontents : block) (i : Z)
  : exec (list byte) :=
  match n with
  | O => Ok []
  | S n' =>
      b ← fetch outputcontents i;
      rest ← write n' outputcontents (i + 1);
      Ok (b :: rest)
  end.

(** Lines 42-61. *)
Definition convert (filecontents : list byte) (hdr : header)
  : exec (list byte) :=
  '(outputcontents, outputlen) ← extract filecontents hdr;
  outputcontents' ← remap (Z.to_nat outputlen) 0 outputcontents;
  write (Z.to_nat outputlen) outputcontents' 0.

(** How [main] ends: [NeedsColors] is the exit of line 41 (the message
    "needs to be 256 colors!", return value 0, no output file opened);
    [Done output] is the exit of line 67 with [output] written. *)
Inductive status : Type :=
| NeedsColors
| Done (output : list byte).

Definition main (filecontents : list byte) : exec status :=
  hdr ← read_header filecontents;
  if negb (bitcount hdr =? 8) then Ok NeedsColors
  else
    output ← convert filecontents hdr;
    Ok (Done output).

(** ** Sample files *)

Module Samples.

(** [n] little-endian bytes of [z]. *)
Fixpoint le_bytes (n : nat) (z : Z) : list byte :=
  match n with
  | O => []
  | S n' =>
      match Byte.of_N (Z.to_N (z mod 256)) with
      | Some b => b :: le_bytes n' (z / 256)
      | None => []
      end
  end.

(** A 38-byte header: only the fields [main] reads are filled in. *)
Definition bmp_header (off w h bits size : Z) : list byte :=
  replicate 10 x00 ++ le_bytes 4 off ++ replicate 4 x00 ++
  le_bytes 4 w ++ le_bytes 4 h ++ replicate 2 x00 ++ le_bytes 2 bits ++
  replicate 4 x00 ++ le_bytes 4 size.

(** The 2x2 image of the specification's scenario. *)
Definition bmp_2x2 : list byte :=
  bmp_header 38 2 2 8 4 ++ [xff; x10; x00; x00].

(** Width 3, height 2, one filler byte per row. *)
Definition bmp_3x2 : list byte :=
  bmp_header 38 3 2 8 8 ++ [xff; x10; x00; xaa; x00; x00; x07; xbb].

(** A file cut short after the first two pixel bytes: the header announces
    a 2x2 image of 4 bytes at offset 38. *)
Definition truncated_bmp : list byte := bmp_header 38 2 2 8 4 ++ [xff; x10].

(** A header alone, announcing width 0, height 1 and pixel data at offset
    5000. *)
Definition empty_rows_bmp : list byte := bmp_header 5000 0 1 8 0.

(** A 2x2 image whose size field says 5 bytes of pixel data. *)
Definition inconsistent_bmp : list byte :=
  bmp_header 38 2 2 8 5 ++ [xff; x00; x10; x10; x10].

(** A 2x2 image without padding whose size field is 0. *)
Definition zero_size_bmp : list byte :=
  bmp_header 38 2 2 8 0 ++ [xff; x00; x10; x10].

End Samples.
Import Samples.

(** ** The little-endian value of the specification *)

(** [byte[idx]] as a number, for an index inside the buffer. *)
Definition byte_at (contents : list byte) (idx : Z) : Z :=
  match contents !! Z.to_nat idx with
  | Some b => byte_val b
  | None => 0
  end.

(** The sum over [i] in [0 .. n-1] of [byte[offset+i] * 2^(8*i)]. *)
Fixpoint le_value (contents : list byte) (offset : Z) (n : nat) : Z :=
  match n with
  | O => 0
  | S n' =>
      le_value contents offset n'
      + byte_at contents (offset + Z.of_nat n') * 2 ^ (8 * Z.of_nat n')
  end.

(** ** The row layout of the specification *)

(** [(pixel_data_size - width*height) / height], with the division of the
    program (toward zero; the floor when the numerator is not negative). *)
Definition padding_per_row (hdr : header) : Z :=
  Z.quot (bytebuffer hdr - width hdr * height hdr) (height hdr).

(** [row_start(h)], for [h] counted from 1. *)
Definition row_start (hdr : header) (h : Z) : Z :=
  paintoffset hdr + bytebuffer hdr - width hdr - padding_per_row hdr
  - (h - 1) * (width hdr + padding_per_row hdr).

(** Where the [r]-th stored row begins, for [r] counted from 0 in file
    order. *)
Definition stored_row (hdr : header) (r : Z) : Z :=
  paintoffset hdr + r * (width hdr + padding_per_row hdr).

(** The size field accounts exactly for [height] rows of [width] pixels
    and their padding. *)
Definition consistent (hdr : header) : Prop :=
  bytebuffer hdr = height hdr * (width hdr + padding_per_row hdr).

(** A valid input: the constraints of the input format table, with the
    pixel data after the header fields and inside the file. *)
Record valid_bmp (filecontents : list byte) (hdr : header) : Prop := {
  valid_header : read_header filecontents = Ok hdr;
  valid_bits : bitcount hdr = 8;
  valid_width : 0 < width hdr;
  valid_height : 0 < height hdr;
  valid_padding : 0 <= padding_per_row hdr;
  valid_size : consistent hdr;
  valid_offset : 0x26 <= paintoffset hdr;
  valid_data :
    paintoffset hdr + bytebuffer hdr <= Z.of_nat (length filecontents);
  valid_length : Z.of_nat (length filecontents) <= int_max
}.

(** ** The map of a file, in closed form *)

(** The pixel byte behind output index [i]: output row [i / width] is the
    stored row [height - 1 - i / width], the column is [i mod width]. *)
Definition pixel (filecontents : list byte) (hdr : header) (i : Z) : byte :=
  default x00
    (filecontents !! Z.to_nat (stored_row hdr (height hdr - 1 - i / width hdr)
                               + i mod width hdr)).

Definition expected_map (filecontents : list byte) (hdr : header)
  : list byte :=
  (fun i : nat => symbol (pixel filecontents hdr (Z.of_nat i)))
    <$> seq 0 (Z.to_nat (width hdr * height hdr)).

(** * Proofs *)

(** The scenario of the specification: pixel data [FF 10 00 00] of a 2x2
    image gives the map [01 01 00 02]. *)
Example scenario_2x2 : main bmp_2x2 = Ok (Done [x01; x01; x00; x02]).
Proof. reflexivity. Qed.

Example scenario_3x2 :
  main bmp_3x2 = Ok (Done [x01; x01; x02; x00; x02; x01]).
Proof. reflexivity. Qed.

(** A negative width: [outputlen] is -4, no cell is allocated or touched,
    and the run ends normally with nothing written. *)
Example scenario_negative_width :
  main (bmp_header 38 (-2) 2 8 4 ++ [xff; x10; x00; x00]) = Ok (Done []).
Proof. reflexivity. Qed.

(** ** The result monad *)

Lemma bind_Ok {A B : Type} (m : exec A) (k : A -> exec B) (b : B) :
  (m ≫= k) = Ok b <-> exists a, m = Ok a /\ k a = Ok b.
Proof.
  destruct m as [a|f]; simpl; split.
  - intros H. exists a. split; [reflexivity | exact H].
  - intros (a' & Ha & Hk). injection Ha as ->. exact Hk.
  - discriminate.
  - intros (a' & Ha & _). discriminate.
Qed.

Lemma bind_eq_Ok {A B : Type} (m : exec A) (k : A -> exec B) (a : A) :
  m = Ok a -> (m ≫= k) = k a.
Proof. intros ->. reflexivity. Qed.

Lemma bind_eq_Fault {A B : Type} (m : exec A) (k : A -> exec B) (f : fault) :
  m = Fault f -> (m ≫= k) = Fault f.
Proof. intros ->. reflexivity. Qed.

(** Splits a hypothesis [x ← m; k = Ok b] into its two steps. *)
Ltac bind_inv H :=
  let a := fresh "a" in
  let Ha := fresh "E" in
  apply bind_Ok in H; destruct H as (a & Ha & H).

(** ** Arithmetic *)

Lemma in_range_spec z : in_range z = true <-> int_min <= z <= int_max.
Proof. unfold in_range. rewrite andb_true_iff, !Z.leb_le. tauto. Qed.

Lemma checked_Ok z v : checked z = Ok v <-> (int_min <= z <= int_max) /\ v = z.
Proof.
  unfold checked. destruct (in_range z) eqn:E.
  - apply in_range_spec in E. split.
    + intros [= <-]. auto.
    + intros [_ ->]. reflexivity.
  - split; [discriminate|]. intros [Hr _].
    apply in_range_spec in Hr. congruence.
Qed.

Lemma checked_in_range z : int_min <= z <= int_max -> checked z = Ok z.
Proof. intros H. apply checked_Ok. auto. Qed.

Lemma int_add_Ok a b v :
  int_add a b = Ok v <-> (int_min <= a + b <= int_max) /\ v = a + b.
Proof. apply checked_Ok. Qed.

Lemma int_sub_Ok a b v :
  int_sub a b = Ok v <-> (int_min <= a - b <= int_max) /\ v = a - b.
Proof. apply checked_Ok. Qed.

Lemma int_mul_Ok a b v :
  int_mul a b = Ok v <-> (int_min <= a * b <= int_max) /\ v = a * b.
Proof. apply checked_Ok. Qed.

Lemma int_div_Ok a b v :
  int_div a b = Ok v <->
  b <> 0 /\ (int_min <= Z.quot a b <= int_max) /\ v = Z.quot a b.
Proof.
  unfold int_div. destruct (Z.eqb_spec b 0) as [->|Hb].
  - split; [discriminate | intros [? _]; congruence].
  - rewrite checked_Ok. tauto.
Qed.

Lemma to_signed_mod u : to_signed u mod 2 ^ 32 = u mod 2 ^ 32.
Proof.
  unfold to_signed. cbv zeta.
  assert (0 <= u mod 2 ^ 32 < 2 ^ 32) by (apply Z.mod_pos_bound; lia).
  destruct (Z.ltb_spec (u mod 2 ^ 32) (2 ^ 31)).
  - apply Z.mod_mod. lia.
  - rewrite <- (Z.mod_add _ 1) by lia.
    replace (u mod 2 ^ 32 - 2 ^ 32 + 1 * 2 ^ 32) with (u mod 2 ^ 32) by lia.
    apply Z.mod_mod. lia.
Qed.

Lemma to_signed_congr a b :
  a mod 2 ^ 32 = b mod 2 ^ 32 -> to_signed a = to_signed b.
Proof. unfold to_signed. intros ->. reflexivity. Qed.

Lemma to_signed_small u : 0 <= u < 2 ^ 31 -> to_signed u = u.
Proof.
  intros H. unfold to_signed. cbv zeta.
  rewrite Z.mod_small by lia.
  destruct (Z.ltb_spec u (2 ^ 31)); lia.
Qed.


(** One step of the accumulation, seen modulo [2^32]. *)
Lemma accumulate_step k v :
  to_signed (to_unsigned (to_signed k) + v mod 2 ^ 32) = to_signed (k + v).
Proof.
  apply to_signed_congr. unfold to_unsigned.
  rewrite to_signed_mod.
  rewrite <- Z.add_mod by lia. reflexivity.
Qed.

Lemma byte_val_bound b : 0 <= byte_val b < 256.
Proof.
  unfold byte_val. pose proof (Byte.to_N_bounded b). lia.
Qed.

Lemma byte_at_bound contents idx : 0 <= byte_at contents idx < 256.
Proof.
  unfold byte_at. destruct (contents !! Z.to_nat idx).
  - apply byte_val_bound.
  - lia.
Qed.

Lemma int_add_in_range a b :
  int_min <= a + b <= int_max -> int_add a b = Ok (a + b).
Proof. apply checked_in_range. Qed.

Lemma int_sub_in_range a b :
  int_min <= a - b <= int_max -> int_sub a b = Ok (a - b).
Proof. apply checked_in_range. Qed.

Lemma int_mul_in_range a b :
  int_min <= a * b <= int_max -> int_mul a b = Ok (a * b).
Proof. apply checked_in_range. Qed.

Lemma shl_u32_in_range u n :
  0 <= n < 32 -> shl_u32 u n = Ok ((u * 2 ^ n) mod 2 ^ 32).
Proof.
  intros H. unfold shl_u32.
  destruct (Z.leb_spec 0 n); [|lia].
  destruct (Z.ltb_spec n 32); [|lia].
  cbn [andb]. rewrite Z.shiftl_mul_pow2 by lia. reflexivity.
Qed.

(** Runs the first step of a sequence, given by the equation [E] (up to
    side conditions on the range of the integers, left to [lia]). *)
Ltac run E :=
  let H := fresh "Hrun" in
  pose proof E as H;
  lazymatch type of H with
  | ?P -> _ =>
      let HP := fresh in
      assert (HP : P) by (unfold int_min, int_max in *; lia);
      specialize (H HP); clear HP
  | _ => idtac
  end;
  rewrite (bind_eq_Ok _ _ _ H); clear H; cbv beta.

(** ** Loads *)

Lemma load_Ok contents idx b :
  load contents idx = Ok b <-> 0 <= idx /\ contents !! Z.to_nat idx = Some b.
Proof.
  unfold load. destruct (Z.ltb_spec idx 0).
  - split; [discriminate | lia].
  - destruct (contents !! Z.to_nat idx) as [b'|]; split.
    + intros [= ->]. auto.
    + intros [_ [= ->]]. reflexivity.
    + discriminate.
    + intros [_ ?]. discriminate.
Qed.

Lemma load_in_bounds contents idx :
  0 <= idx < Z.of_nat (length contents) ->
  exists b, load contents idx = Ok b /\ byte_at contents idx = byte_val b.
Proof.
  intros H.
  destruct (lookup_lt_is_Some_2 contents (Z.to_nat idx)) as [b Hb]; [lia|].
  exists b. split.
  - apply load_Ok. split; [lia | exact Hb].
  - unfold byte_at. rewrite Hb. reflexivity.
Qed.

Lemma load_out_of_bounds contents idx :
  ~ (0 <= idx < Z.of_nat (length contents)) ->
  load contents idx = Fault OutOfBounds.
Proof.
  intros H. unfold load. destruct (Z.ltb_spec idx 0); [reflexivity|].
  rewrite lookup_ge_None_2 by lia. reflexivity.
Qed.

(** ** [hiread] *)

Section Hiread.

Variable contents : list byte.
Variable offset : Z.
Hypothesis offset_nonneg : 0 <= offset.
Hypothesis length_fits : Z.of_nat (length contents) <= int_max.

(** The loop invariant: before iteration [i] the accumulator holds the
    value of the first [i] bytes, converted to [int]. *)
Lemma hiread_loop_le (n : nat) :
  forall i : nat,
    (i + n <= 4)%nat ->
    offset + Z.of_nat (i + n) <= Z.of_nat (length contents) ->
    hiread_loop n contents offset (Z.of_nat i)
      (to_signed (le_value contents offset i))
    = Ok (to_signed (le_value contents offset (i + n))).
Proof using offset_nonneg length_fits.
  unfold int_max in length_fits.
  induction n as [|n IH]; intros i Hi Hlen.
  - rewrite Nat.add_0_r. reflexivity.
  - cbn [hiread_loop].
    destruct (load_in_bounds contents (offset + Z.of_nat i)) as (b & Hb & Hv);
      [lia|].
    run (int_add_in_range offset (Z.of_nat i)).
    run Hb.
    run (int_mul_in_range 8 (Z.of_nat i)).
    run (shl_u32_in_range (byte_val b) (8 * Z.of_nat i)).
    run (int_add_in_range (Z.of_nat i) 1).
    rewrite accumulate_step.
    replace (Z.of_nat i + 1) with (Z.of_nat (S i)) by lia.
    replace (le_value contents offset i
             + byte_val b * 2 ^ (8 * Z.of_nat i))
      with (le_value contents offset (S i))
      by (cbn [le_value]; rewrite Hv; reflexivity).
    rewrite IH by lia.
    replace (S i + n)%nat with (i + S n)%nat by lia. reflexivity.
Qed.

Lemma hiread_to_signed (length : Z) :
  1 <= length <= 4 ->
  offset + length <= Z.of_nat (List.length contents) ->
  hiread contents offset length
  = Ok (to_signed (le_value contents offset (Z.to_nat length))).
Proof using offset_nonneg length_fits.
  intros Hl Hb. unfold hiread.
  apply (hiread_loop_le (Z.to_nat length) 0); lia.
Qed.

End Hiread.

Lemma le_value_bound contents offset (n : nat) :
  0 <= le_value contents offset n < 2 ^ (8 * Z.of_nat n).
Proof.
  induction n as [|n IH].
  - cbn. lia.
  - cbn [le_value].
    pose proof (byte_at_bound contents (offset + Z.of_nat n)) as Hb.
    replace (8 * Z.of_nat (S n)) with (8 * Z.of_nat n + 8) by lia.
    rewrite Z.pow_add_r by lia.
    change (2 ^ 8) with 256.
    assert (0 < 2 ^ (8 * Z.of_nat n)) by (apply Z.pow_pos_nonneg; lia).
    nia.
Qed.

Lemma read_header_fields filecontents hdr :
  read_header filecontents = Ok hdr ->
  hiread filecontents 0xa 4 = Ok (paintoffset hdr) /\
  hiread filecontents 0x12 4 = Ok (width hdr) /\
  hiread filecontents 0x16 4 = Ok (height hdr) /\
  hiread filecontents 0x1c 2 = Ok (bitcount hdr) /\
  hiread filecontents 0x22 4 = Ok (bytebuffer hdr).
Proof.
  unfold read_header. intros H.
  bind_inv H. bind_inv H. bind_inv H. bind_inv H. bind_inv H.
  injection H as <-. cbn. auto.
Qed.

Lemma le_value_short contents offset (n : nat) :
  (n <= 3)%nat -> 0 <= le_value contents offset n < 16777216.
Proof.
  intros Hn. pose proof (le_value_bound contents offset n) as [H0 Hv].
  split; [exact H0|].
  eapply Z.lt_le_trans; [exact Hv|].
  change 16777216 with (2 ^ 24). apply Z.pow_le_mono_r; lia.
Qed.

Lemma le_value_4 contents offset :
  le_value contents offset 4
  = le_value contents offset 3 + byte_at contents (offset + 3) * 16777216.
Proof. reflexivity. Qed.

(** C7, as stated, fails on a 4-byte read whose last byte is [0x80]: the
    little-endian value is [2^31], [hiread] returns [-2^31]. *)
Lemma hiread_unsigned_counterexample :
  hiread [x00; x00; x00; x80] 0 4 = Ok (-2147483648) /\
  le_value [x00; x00; x00; x80] 0 4 = 2147483648 /\
  hiread [x00; x00; x00; x80] 0 4 <> Ok (le_value [x00; x00; x00; x80] 0 4).
Proof. repeat split. vm_compute. discriminate. Qed.

(** C7 (amended): for an offset and a length in 1..4 inside the buffer,
    [hiread] returns the little-endian value of the [length] bytes at
    [offset] converted to a signed 32-bit [int]; this is the unsigned
    little-endian value itself whenever [length] is at most 3 or the fourth
    byte is below [0x80]. *)
Theorem hiread_little_endian (contents : list byte) (offset length : Z) :
  0 <= offset ->
  1 <= length <= 4 ->
  offset + length <= Z.of_nat (List.length contents) ->
  Z.of_nat (List.length contents) <= int_max ->
  let v := le_value contents offset (Z.to_nat length) in
  hiread contents offset length = Ok (to_signed v) /\
  (length <= 3 \/ byte_at contents (offset + 3) < 0x80 ->
   hiread contents offset length = Ok v).
Proof.
  intros Hoff Hlen Hin Hfit v.
  assert (Hr : hiread contents offset length = Ok (to_signed v))
    by (apply hiread_to_signed; assumption).
  split; [exact Hr|].
  intros Hsmall. rewrite Hr. f_equal. apply to_signed_small.
  subst v. destruct (Z.eq_dec length 4) as [->|Hne].
  - destruct Hsmall as [H3|Hb]; [lia|].
    change (Z.to_nat 4) with 4%nat. rewrite le_value_4.
    pose proof (le_value_short contents offset 3 (le_n 3)) as Hv.
    pose proof (byte_at_bound contents (offset + 3)).
    change (2 ^ 31) with 2147483648. lia.
  - pose proof (le_value_short contents offset (Z.to_nat length)) as Hv.
    lia.
Qed.

Lemma hiread_little_endian_witness :
  hiread [x2a; x01; x00; x00] 0 4 = Ok (to_signed 298) /\
  hiread [x2a; x01; x00; x00] 0 4 = Ok 298.
Proof.
  pose proof (hiread_little_endian [x2a; x01; x00; x00] 0 4) as H.
  destruct H as [H1 H2]; [lia | lia | simpl; lia | vm_compute; discriminate |].
  split.
  - exact H1.
  - apply H2. right. vm_compute. reflexivity.
Defined.



(** *** What a successful [hiread] has read *)

Lemma to_signed_range u : int_min <= to_signed u <= int_max.
Proof.
  unfold to_signed, int_min, int_max. cbv zeta.
  assert (0 <= u mod 2 ^ 32 < 2 ^ 32) by (apply Z.mod_pos_bound; lia).
  destruct (Z.ltb_spec (u mod 2 ^ 32) (2 ^ 31)); lia.
Qed.

Lemma hiread_loop_range (n : nat) :
  forall contents offset i k v,
    int_min <= k <= int_max ->
    hiread_loop n contents offset i k = Ok v ->
    int_min <= v <= int_max.
Proof.
  induction n as [|n IH]; intros contents offset i k v Hk H.
  - injection H as <-. exact Hk.
  - cbn [hiread_loop] in H.
    bind_inv H. bind_inv H. bind_inv H. bind_inv H. bind_inv H.
    eapply IH; [|exact H]. apply to_signed_range.
Qed.

Lemma hiread_range contents offset length v :
  hiread contents offset length = Ok v -> int_min <= v <= int_max.
Proof.
  apply hiread_loop_range. unfold int_min, int_max. lia.
Qed.

(** Every index the loop has read lies inside the buffer. *)
Lemma hiread_loop_in_bounds (n : nat) :
  forall contents offset i k v,
    hiread_loop n contents offset i k = Ok v ->
    forall t : nat, (t < n)%nat ->
      0 <= offset + i + Z.of_nat t < Z.of_nat (length contents).
Proof.
  induction n as [|n IH]; intros contents offset i k v H t Ht; [lia|].
  cbn [hiread_loop] in H.
  bind_inv H. bind_inv H. bind_inv H. bind_inv H. bind_inv H.
  apply int_add_Ok in E as [_ ->].
  apply load_Ok in E0 as [Hidx Hb].
  apply lookup_lt_Some in Hb.
  apply int_add_Ok in E3 as [_ ->].
  destruct t as [|t].
  - lia.
  - specialize (IH _ _ _ _ _ H t). lia.
Qed.

Lemma hiread_in_bounds contents offset length v :
  1 <= length ->
  hiread contents offset length = Ok v ->
  0 <= offset /\ offset + length <= Z.of_nat (List.length contents).
Proof.
  intros Hl H. unfold hiread in H.
  pose proof (hiread_loop_in_bounds _ _ _ _ _ _ H 0%nat) as H0.
  pose proof (hiread_loop_in_bounds _ _ _ _ _ _ H (Z.to_nat length - 1)%nat)
    as H1.
  lia.
Qed.

(** The five header reads succeed on any file of 38 bytes or more. *)
Lemma read_header_total filecontents :
  0x26 <= Z.of_nat (length filecontents) <= int_max ->
  read_header filecontents
  = Ok {| paintoffset := to_signed (le_value filecontents 0xa 4);
          width := to_signed (le_value filecontents 0x12 4);
          height := to_signed (le_value filecontents 0x16 4);
          bitcount := to_signed (le_value filecontents 0x1c 2);
          bytebuffer := to_signed (le_value filecontents 0x22 4) |}.
Proof.
  intros [Hlo Hhi]. unfold read_header.
  rewrite !hiread_to_signed by lia. reflexivity.
Qed.

Lemma read_header_length filecontents hdr :
  read_header filecontents = Ok hdr ->
  0x26 <= Z.of_nat (length filecontents).
Proof.
  intros H. apply read_header_fields in H.
  destruct H as (_ & _ & _ & _ & H).
  apply hiread_in_bounds in H; lia.
Qed.

Lemma read_header_range filecontents hdr :
  read_header filecontents = Ok hdr ->
  (int_min <= paintoffset hdr <= int_max) /\
  (int_min <= width hdr <= int_max) /\
  (int_min <= height hdr <= int_max) /\
  (int_min <= bytebuffer hdr <= int_max).
Proof.
  intros H. apply read_header_fields in H.
  destruct H as (H1 & H2 & H3 & _ & H5).
  apply hiread_range in H1, H2, H3, H5. auto.
Qed.

(** ** The symbol mapping *)

Lemma symbol_cases b :
  (b = xff /\ symbol b = x00) \/
  (b = x00 /\ symbol b = x01) \/
  (b <> xff /\ b <> x00 /\ symbol b = x02).
Proof.
  unfold symbol.
  destruct (Byte.eqb b xff) eqn:Eff.
  - left. apply Byte.byte_dec_bl in Eff. auto.
  - destruct (Byte.eqb b x00) eqn:E00.
    + right; left. apply Byte.byte_dec_bl in E00. auto.
    + right; right. repeat split.
      * intros ->. discriminate.
      * intros ->. discriminate.
Qed.

Lemma symbol_range b : symbol b = x00 \/ symbol b = x01 \/ symbol b = x02.
Proof. destruct (symbol_cases b) as [[_ ->]|[[_ ->]|(_ & _ & ->)]]; auto. Qed.

(** C8, as stated, fails at [0xFF]: one application gives [0x00], two
    give [0x01]. *)
Lemma symbol_idempotent_counterexample :
  symbol xff = x00 /\ symbol (symbol xff) = x01 /\
  symbol (symbol xff) <> symbol xff.
Proof. repeat split. discriminate. Qed.

(** C8 (amended): applying the symbol mapping twice gives the same result
    as applying it once exactly for the bytes other than [0x00] and
    [0xFF]. *)
Theorem symbol_twice (b : byte) :
  symbol (symbol b) = symbol b <-> b <> x00 /\ b <> xff.
Proof.
  destruct (symbol_cases b) as [[-> E]|[[-> E]|(Hff & H00 & E)]];
    rewrite E.
  - split; [discriminate | intros [_ H]; congruence].
  - split; [discriminate | intros [H _]; congruence].
  - split; [auto | reflexivity].
Qed.

(** ** The format check *)

Lemma main_after_header filecontents hdr :
  read_header filecontents = Ok hdr ->
  main filecontents
  = if negb (bitcount hdr =? 8) then Ok NeedsColors
    else output ← convert filecontents hdr; Ok (Done output).
Proof. intros H. unfold main. rewrite H. reflexivity. Qed.

Lemma main_accepted filecontents hdr :
  read_header filecontents = Ok hdr ->
  bitcount hdr = 8 ->
  main filecontents = output ← convert filecontents hdr; Ok (Done output).
Proof.
  intros H H8. rewrite (main_after_header _ _ H), H8. reflexivity.
Qed.

Lemma accepted_not_rejected filecontents hdr :
  read_header filecontents = Ok hdr ->
  bitcount hdr = 8 ->
  main filecontents <> Ok NeedsColors.
Proof.
  intros H H8. rewrite (main_accepted _ _ H H8).
  destruct (convert filecontents hdr); discriminate.
Qed.

Lemma main_not_accepted filecontents hdr :
  read_header filecontents = Ok hdr ->
  (bitcount hdr =? 8) = false ->
  main filecontents = Ok NeedsColors.
Proof.
  intros H Hne. rewrite (main_after_header _ _ H), Hne. reflexivity.
Qed.

(** C4: when the header decodes and its bits-per-pixel field is not 8,
    [main] leaves through the format check: it reports the error and
    writes no output (the result carries none), without running the
    extraction or the remapping. *)
Theorem format_check_rejects (filecontents : list byte) (hdr : header) :
  read_header filecontents = Ok hdr ->
  bitcount hdr <> 8 ->
  main filecontents = Ok NeedsColors.
Proof.
  intros H Hne. apply (main_not_accepted _ _ H).
  apply Z.eqb_neq. exact Hne.
Qed.

Lemma format_check_rejects_witness :
  main (bmp_header 38 2 2 24 4 ++ [xff; x10; x00; x00]) = Ok NeedsColors.
Proof.
  apply (format_check_rejects _ (Header 38 2 2 24 4)).
  - vm_compute. reflexivity.
  - simpl. lia.
Defined.

(** C5 (what the code does): with bits-per-pixel 8 and height 0, [main]
    is not stopped by any check; it reaches line 44 and divides by the
    height. *)
Theorem height_zero_divides (filecontents : list byte) (hdr : header) :
  read_header filecontents = Ok hdr ->
  bitcount hdr = 8 ->
  height hdr = 0 ->
  main filecontents = Fault DivideByZero.
Proof.
  intros H H8 H0.
  rewrite (main_accepted _ _ H H8).
  destruct (read_header_range _ _ H) as (_ & _ & _ & Hbb).
  unfold convert, extract, wasted_pixels. rewrite H0.
  run (int_mul_in_range 0 (width hdr)).
  run (int_mul_in_range (width hdr) 0).
  replace (width hdr * 0) with 0 by lia.
  run (int_sub_in_range (bytebuffer hdr) 0).
  reflexivity.
Qed.

Lemma height_zero_divides_witness :
  main (bmp_header 38 2 0 8 4 ++ [xff; x10; x00; x00]) = Fault DivideByZero.
Proof.
  apply (height_zero_divides _ (Header 38 2 0 8 4)).
  - vm_compute. reflexivity.
  - reflexivity.
  - reflexivity.
Defined.

(** The bits-per-pixel field is a function of the bytes at [0x1C] and
    [0x1D]. *)
Lemma le_value_two_bytes (c1 c2 : list byte) :
  c1 !! Z.to_nat 0x1c = c2 !! Z.to_nat 0x1c ->
  c1 !! Z.to_nat 0x1d = c2 !! Z.to_nat 0x1d ->
  le_value c1 0x1c 2 = le_value c2 0x1c 2.
Proof.
  intros H0 H1. cbn [le_value]. unfold byte_at.
  change (Z.to_nat (0x1c + Z.of_nat 0)) with (Z.to_nat 0x1c).
  change (Z.to_nat (0x1c + Z.of_nat 1)) with (Z.to_nat 0x1d).
  rewrite H0, H1. reflexivity.
Qed.

(** C10: two files that hold a whole header and agree on the bytes at
    [0x1C] and [0x1D] take the same branch of the format check: both are
    rejected with no output, or both go on to the extraction, whatever
    their other bytes are. *)
Theorem format_check_two_bytes (c1 c2 : list byte) :
  0x26 <= Z.of_nat (length c1) <= int_max ->
  0x26 <= Z.of_nat (length c2) <= int_max ->
  c1 !! Z.to_nat 0x1c = c2 !! Z.to_nat 0x1c ->
  c1 !! Z.to_nat 0x1d = c2 !! Z.to_nat 0x1d ->
  (main c1 = Ok NeedsColors /\ main c2 = Ok NeedsColors) \/
  (exists h1 h2,
      read_header c1 = Ok h1 /\ read_header c2 = Ok h2 /\
      bitcount h1 = 8 /\ bitcount h2 = 8 /\
      main c1 = (output ← convert c1 h1; Ok (Done output)) /\
      main c2 = (output ← convert c2 h2; Ok (Done output))).
Proof.
  intros L1 L2 B0 B1.
  pose proof (read_header_total c1 L1) as R1.
  pose proof (read_header_total c2 L2) as R2.
  pose proof (le_value_two_bytes c1 c2 B0 B1) as Hbits.
  destruct (Z.eq_dec (to_signed (le_value c1 0x1c 2)) 8) as [E8|Hne].
  - right. eexists _, _.
    split; [exact R1|]. split; [exact R2|].
    split; [exact E8|]. split; [cbn [bitcount]; rewrite <- Hbits; exact E8|].
    split.
    + apply main_accepted; [exact R1 | exact E8].
    + apply main_accepted; [exact R2 | cbn [bitcount]; rewrite <- Hbits; exact E8].
  - left. split.
    + apply (main_not_accepted _ _ R1). apply Z.eqb_neq. exact Hne.
    + apply (main_not_accepted _ _ R2). apply Z.eqb_neq.
      cbn [bitcount]. rewrite <- Hbits. exact Hne.
Qed.

Lemma format_check_two_bytes_witness :
  (main bmp_2x2 = Ok NeedsColors /\ main bmp_3x2 = Ok NeedsColors) \/
  (exists h1 h2,
      read_header bmp_2x2 = Ok h1 /\ read_header bmp_3x2 = Ok h2 /\
      bitcount h1 = 8 /\ bitcount h2 = 8 /\
      main bmp_2x2 = (output ← convert bmp_2x2 h1; Ok (Done output)) /\
      main bmp_3x2 = (output ← convert bmp_3x2 h2; Ok (Done output))).
Proof.
  apply (format_check_two_bytes bmp_2x2 bmp_3x2).
  - vm_compute. split; discriminate.
  - vm_compute. split; discriminate.
  - reflexivity.
  - reflexivity.
Defined.

(** ** Reads are not checked *)

(** C6, as stated, fails.  [hiread] has no buffer length to compare with:
    on the empty buffer it returns 0 for offset 5 and length 0, and for
    length 4 it reads outside the buffer.  [main] on [truncated_bmp]
    passes the format check and reads the first row at offset 40, outside
    the 40-byte file, instead of leaving through a reported error; on
    [empty_rows_bmp] the computed row offset 5000 is outside the 38-byte
    file and the conversion completes. *)
Lemma reads_checked_counterexample :
  hiread [] 5 0 = Ok 0 /\
  hiread [] 0 4 = Fault OutOfBounds /\
  main truncated_bmp = Fault OutOfBounds /\
  main truncated_bmp <> Ok NeedsColors /\
  first_offset (Header 5000 0 1 8 0) 0 = Ok 5000 /\
  main empty_rows_bmp = Ok (Done []).
Proof. repeat split. discriminate. Qed.

Lemma hiread_loop_short (n : nat) :
  forall contents offset i k,
    0 <= offset -> offset + 4 <= int_max ->
    0 <= i -> i + Z.of_nat n <= 4 -> (0 < n)%nat ->
    Z.of_nat (length contents) < offset + i + Z.of_nat n ->
    hiread_loop n contents offset i k = Fault OutOfBounds.
Proof.
  induction n as [|n IH]; intros contents offset i k Ho Hmax Hi Hn Hpos Hlen.
  - lia.
  - cbn [hiread_loop].
    run (int_add_in_range offset i).
    destruct (Z_lt_dec (offset + i) (Z.of_nat (length contents)))
      as [Hin|Hout].
    + destruct (load_in_bounds contents (offset + i)) as (b & Hb & _);
        [lia|].
      run Hb.
      run (int_mul_in_range 8 i).
      run (shl_u32_in_range (byte_val b) (8 * i)).
      run (int_add_in_range i 1).
      apply IH; lia.
    + assert (Hnot : ~ (0 <= offset + i < Z.of_nat (length contents)))
        by lia.
      rewrite (bind_eq_Fault _ _ _ (load_out_of_bounds _ _ Hnot)).
      reflexivity.
Qed.

Lemma hiread_short contents offset length :
  0 <= offset -> offset + 4 <= int_max ->
  1 <= length <= 4 ->
  Z.of_nat (List.length contents) < offset + length ->
  hiread contents offset length = Fault OutOfBounds.
Proof.
  intros Ho Hmax Hl Hlen. unfold hiread.
  apply hiread_loop_short; lia.
Qed.

Lemma hiread_before_buffer contents offset length :
  int_min <= offset < 0 ->
  1 <= length ->
  hiread contents offset length = Fault OutOfBounds.
Proof.
  intros Ho Hl. unfold hiread.
  destruct (Z.to_nat length) as [|n] eqn:En; [lia|].
  cbn [hiread_loop].
  run (int_add_in_range offset 0).
  assert (Hnot : ~ (0 <= offset + 0 < Z.of_nat (List.length contents)))
    by lia.
  rewrite (bind_eq_Fault _ _ _ (load_out_of_bounds _ _ Hnot)).
  reflexivity.
Qed.

(** With at least one row of at least one pixel, the first thing the copy
    does is read [filecontents[offset]]. *)
Lemma copy_rows_first_read filecontents w wasted h offset out j n :
  1 <= w ->
  int_min <= offset <= int_max ->
  ~ (0 <= offset < Z.of_nat (length filecontents)) ->
  copy_rows (S n) filecontents w wasted h offset out j = Fault OutOfBounds.
Proof.
  intros Hw Hr Hout. cbn [copy_rows].
  destruct (Z.to_nat w) as [|m] eqn:Em; [lia|].
  cbn [copy_row].
  run (int_add_in_range offset 0).
  rewrite Z.add_0_r.
  rewrite (bind_eq_Fault _ _ _ (load_out_of_bounds _ _ Hout)).
  reflexivity.
Qed.

(** C6 (amended): no read of the source buffer is checked.  For every
    buffer (of a length that fits an [int]), [hiread] with a length in 1..4
    returns a value exactly when the bytes it is asked for lie inside the
    buffer; otherwise (for an [int] offset with [offset + 4] within [int])
    it reads outside the buffer.  A file whose header decodes with
    bits-per-pixel 8 never leaves [main] through a reported error; when
    the width and the height are at least 1, the arithmetic of lines 43-47
    stays within [int] and the first row offset is outside the file,
    [main] reads outside the file. *)
Theorem reads_unchecked :
  (forall (contents : list byte) (offset length : Z),
      Z.of_nat (List.length contents) <= int_max ->
      1 <= length <= 4 ->
      ((exists v, hiread contents offset length = Ok v) <->
       0 <= offset /\ offset + length <= Z.of_nat (List.length contents)) /\
      (~ (0 <= offset /\
          offset + length <= Z.of_nat (List.length contents)) ->
       int_min <= offset -> offset + 4 <= int_max ->
       hiread contents offset length = Fault OutOfBounds)) /\
  (forall (filecontents : list byte) (hdr : header),
      read_header filecontents = Ok hdr ->
      bitcount hdr = 8 ->
      main filecontents <> Ok NeedsColors /\
      (forall outputlen wasted first,
          1 <= width hdr -> 1 <= height hdr ->
          int_mul (height hdr) (width hdr) = Ok outputlen ->
          wasted_pixels hdr = Ok wasted ->
          first_offset hdr wasted = Ok first ->
          ~ (0 <= first < Z.of_nat (List.length filecontents)) ->
          main filecontents = Fault OutOfBounds)).
Proof.
  split.
  - intros contents offset length Hfit Hlen. split.
    + split.
      * intros [v Hv]. apply (hiread_in_bounds _ _ _ _ (proj1 Hlen) Hv).
      * intros [Ho Hb]. eexists. apply hiread_to_signed; assumption.
    + intros Hout Hlo Hhi.
      destruct (Z_lt_dec offset 0) as [Hneg|Hpos].
      * apply hiread_before_buffer; lia.
      * apply hiread_short; lia.
  - intros filecontents hdr Hh H8. split.
    + apply (accepted_not_rejected _ _ Hh H8).
    + intros outputlen wasted first Hw Hht Hmul Hwasted Hfirst Hout.
      rewrite (main_accepted _ _ Hh H8).
      unfold convert, extract.
      rewrite Hmul, Hwasted. cbn [mbind exec_bind].
      apply int_mul_Ok in Hmul as [_ ->].
      cbv zeta. unfold malloc.
      rewrite Hfirst. cbn [mbind exec_bind].
      destruct (Z.to_nat (height hdr)) as [|n] eqn:En; [lia|].
      rewrite copy_rows_first_read; [reflexivity | lia | | exact Hout].
      unfold first_offset in Hfirst.
      bind_inv Hfirst. bind_inv Hfirst.
      apply int_sub_Ok in Hfirst as [Hr ->]. exact Hr.
Qed.

Lemma reads_unchecked_witness :
  hiread [] 0 4 = Fault OutOfBounds /\
  ((exists v, hiread truncated_bmp 0x26 4 = Ok v) <->
   0 <= 0x26 /\ 0x26 + 4 <= Z.of_nat (List.length truncated_bmp)) /\
  main truncated_bmp <> Ok NeedsColors /\
  main truncated_bmp = Fault OutOfBounds.
Proof.
  destruct reads_unchecked as [Hread Hmain].
  destruct (Hread [] 0 4) as [_ Hempty];
    [vm_compute; discriminate | lia |].
  destruct (Hread truncated_bmp 0x26 4) as [Hiff _];
    [vm_compute; discriminate | lia |].
  destruct (Hmain truncated_bmp (Header 38 2 2 8 4)) as [Hne Hfirst];
    [vm_compute; reflexivity | reflexivity |].
  split.
  { apply Hempty.
    - simpl. lia.
    - unfold int_min. lia.
    - unfold int_max. lia. }
  split; [exact Hiff|]. split; [exact Hne|].
  apply (Hfirst 4 0 40).
  - simpl. lia.
  - simpl. lia.
  - reflexivity.
  - reflexivity.
  - reflexivity.
  - vm_compute. intros [_ H]. discriminate H.
Defined.

(** ** Blocks *)

Lemma store_Ok (a a' : block) j v :
  store a j v = Ok a' <->
  (0 <= j < Z.of_nat (length a)) /\ a' = <[Z.to_nat j := Some v]> a.
Proof.
  unfold store.
  destruct (Z.leb_spec 0 j); destruct (Z.ltb_spec j (Z.of_nat (length a)));
    cbn [andb]; split; try discriminate; try (intros [? _]; lia).
  - intros [= <-]. auto.
  - intros [_ ->]. reflexivity.
Qed.

Lemma store_length (a a' : block) j v :
  store a j v = Ok a' -> length a' = length a.
Proof. intros H. apply store_Ok in H as [_ ->]. apply length_insert. Qed.

Lemma fetch_store_eq (a a' : block) j v :
  store a j v = Ok a' -> fetch a' j = Ok v.
Proof.
  intros H. apply store_Ok in H as [Hj ->]. unfold fetch.
  destruct (Z.ltb_spec j 0); [lia|].
  rewrite list_lookup_insert_eq by lia. reflexivity.
Qed.

Lemma fetch_store_ne (a a' : block) j v i :
  store a j v = Ok a' -> i <> j -> fetch a' i = fetch a i.
Proof.
  intros H Hne. apply store_Ok in H as [Hj ->]. unfold fetch.
  destruct (Z.ltb_spec i 0); [reflexivity|].
  rewrite list_lookup_insert_ne by lia. reflexivity.
Qed.

Lemma fetch_Ok_lt (a : block) i b :
  fetch a i = Ok b -> 0 <= i < Z.of_nat (length a).
Proof.
  unfold fetch. destruct (Z.ltb_spec i 0); [discriminate|].
  destruct (a !! Z.to_nat i) as [c|] eqn:E; [|discriminate].
  intros _. apply lookup_lt_Some in E. lia.
Qed.

(** ** The copy of the rows: what a completed copy has done *)

Lemma copy_row_inv (n : nat) :
  forall filecontents offset w out j out' j',
    copy_row n filecontents offset w out j = Ok (out', j') ->
    j' = j + Z.of_nat n /\
    length out' = length out /\
    (forall t, 0 <= t < Z.of_nat n ->
       exists b, load filecontents (offset + w + t) = Ok b /\
                 fetch out' (j + t) = Ok b) /\
    (forall i, i < j -> fetch out' i = fetch out i).
Proof.
  induction n as [|n IH]; intros filecontents offset w out j out' j' H.
  - injection H as <- <-. repeat split; [lia | intros; lia].
  - cbn [copy_row] in H.
    bind_inv H. bind_inv H. bind_inv H. bind_inv H. bind_inv H.
    apply int_add_Ok in E as [_ ->].
    apply int_add_Ok in E2 as [_ ->].
    apply int_add_Ok in E3 as [_ ->].
    destruct (IH _ _ _ _ _ _ _ H) as (Hj & Hlen & Hrow & Hlow).
    pose proof (fetch_store_eq _ _ _ _ E1) as Hnew.
    split; [lia|]. split; [rewrite Hlen; eapply store_length; eauto|].
    split.
    + intros t Ht. destruct (Z.eq_dec t 0) as [->|Hne].
      * exists a0. rewrite !Z.add_0_r. split; [exact E0|].
        rewrite Hlow by lia. exact Hnew.
      * destruct (Hrow (t - 1)) as (b & Hb1 & Hb2); [lia|].
        exists b. split.
        -- rewrite <- Hb1. f_equal; lia.
        -- rewrite <- Hb2. f_equal; lia.
    + intros i Hi. rewrite Hlow by lia.
      eapply fetch_store_ne; [exact E1 | lia].
Qed.

Lemma copy_rows_inv (n : nat) :
  forall filecontents w wasted h offset out j out' j',
    copy_rows n filecontents w wasted h offset out j = Ok (out', j') ->
    j' = j + Z.of_nat n * Z.max 0 w /\
    length out' = length out /\
    (forall r c, 0 <= r < Z.of_nat n -> 0 <= c < w ->
       exists b, load filecontents (offset - r * (w + wasted) + c) = Ok b /\
                 fetch out' (j + r * w + c) = Ok b) /\
    (forall i, i < j -> fetch out' i = fetch out i).
Proof.
  induction n as [|n IH];
    intros filecontents w wasted h offset out j out' j' H.
  - injection H as <- <-. repeat split; [lia | intros; lia].
  - cbn [copy_rows] in H.
    bind_inv H. destruct a as [out1 j1].
    bind_inv H. bind_inv H. bind_inv H.
    apply copy_row_inv in E as (Hj1 & Hlen1 & Hrow1 & Hlow1).
    apply int_add_Ok in E1 as [_ ->].
    apply int_sub_Ok in E2 as [_ ->].
    destruct (IH _ _ _ _ _ _ _ _ _ H) as (Hj & Hlen & Hrows & Hlow).
    split; [lia|]. split; [congruence|]. split.
    + intros r c Hr Hc. destruct (Z.eq_dec r 0) as [->|Hne].
      * destruct (Hrow1 c) as (b & Hb1 & Hb2); [lia|].
        exists b. split.
        -- rewrite <- Hb1. f_equal; lia.
        -- rewrite Hlow by lia. rewrite <- Hb2. f_equal; lia.
      * destruct (Hrows (r - 1) c) as (b & Hb1 & Hb2); [lia | lia |].
        exists b. split.
        -- rewrite <- Hb1. f_equal; ring.
        -- rewrite <- Hb2. f_equal. subst j1.
           replace (Z.of_nat (Z.to_nat w)) with w by lia. ring.
    + intros i Hi. rewrite Hlow by lia. apply Hlow1. exact Hi.
Qed.

(** ** The remapping pass and the final write *)

Lemma remap_inv (n : nat) :
  forall i out out',
    remap n i out = Ok out' ->
    length out' = length out /\
    (forall t, 0 <= t < Z.of_nat n ->
       exists b, fetch out (i + t) = Ok b /\
                 fetch out' (i + t) = Ok (symbol b)) /\
    (forall p, p < i -> fetch out' p = fetch out p).
Proof.
  induction n as [|n IH]; intros i out out' H.
  - injection H as <-. repeat split; intros; lia.
  - cbn [remap] in H.
    bind_inv H. bind_inv H. bind_inv H.
    apply int_add_Ok in E1 as [_ ->].
    destruct (IH _ _ _ H) as (Hlen & Hcells & Hlow).
    split; [rewrite Hlen; eapply store_length; eauto|]. split.
    + intros t Ht. destruct (Z.eq_dec t 0) as [->|Hne].
      * exists a. rewrite Z.add_0_r. split; [exact E|].
        rewrite Hlow by lia. eapply fetch_store_eq; eauto.
      * destruct (Hcells (t - 1)) as (b & Hb1 & Hb2); [lia|].
        exists b. split.
        -- rewrite <- Hb1.
           rewrite (fetch_store_ne _ _ _ _ (i + 1 + (t - 1)) E0) by lia.
           f_equal; lia.
        -- rewrite <- Hb2. f_equal; lia.
    + intros p Hp. rewrite Hlow by lia.
      eapply fetch_store_ne; [exact E0 | lia].
Qed.

Lemma write_inv (n : nat) :
  forall out i bytes,
    write n out i = Ok bytes ->
    length bytes = n /\
    (forall t : nat, (t < n)%nat ->
       exists b, bytes !! t = Some b /\ fetch out (i + Z.of_nat t) = Ok b).
Proof.
  induction n as [|n IH]; intros out i bytes H.
  - injection H as <-. split; [reflexivity | intros; lia].
  - cbn [write] in H. bind_inv H. bind_inv H. injection H as <-.
    destruct (IH _ _ _ E0) as (Hlen & Hcells).
    split; [cbn; lia|].
    intros [|t] Ht.
    + exists a. rewrite Z.add_0_r. auto.
    + destruct (Hcells t) as (b & Hb1 & Hb2); [lia|].
      exists b. split; [exact Hb1|].
      rewrite <- Hb2. f_equal; lia.
Qed.

(** ** A completed conversion *)

Lemma wasted_pixels_Ok hdr wasted :
  wasted_pixels hdr = Ok wasted -> wasted = padding_per_row hdr.
Proof.
  unfold wasted_pixels, padding_per_row. intros H.
  bind_inv H. bind_inv H.
  apply int_mul_Ok in E as [_ ->]. apply int_sub_Ok in E0 as [_ ->].
  apply int_div_Ok in H as (_ & _ & ->). reflexivity.
Qed.

Lemma first_offset_Ok hdr wasted first :
  wasted = padding_per_row hdr ->
  first_offset hdr wasted = Ok first ->
  forall h, first - (h - 1) * (width hdr + wasted) = row_start hdr h.
Proof.
  unfold first_offset, row_start. intros -> H h.
  bind_inv H. bind_inv H.
  apply int_sub_Ok in E as [_ ->]. apply int_add_Ok in E0 as [_ ->].
  apply int_sub_Ok in H as [_ ->]. ring.
Qed.

Lemma extract_inv filecontents hdr copied outputlen :
  extract filecontents hdr = Ok (copied, outputlen) ->
  outputlen = height hdr * width hdr /\
  (int_min <= outputlen <= int_max) /\
  length copied = Z.to_nat outputlen /\
  (exists wasted first,
      wasted_pixels hdr = Ok wasted /\ first_offset hdr wasted = Ok first) /\
  (forall h c, 1 <= h <= height hdr -> 0 <= c < width hdr ->
     exists raw, load filecontents (row_start hdr h + c) = Ok raw /\
                 fetch copied ((h - 1) * width hdr + c) = Ok raw).
Proof.
  unfold extract. intros H.
  bind_inv H. bind_inv H. cbv zeta in H. bind_inv H. bind_inv H.
  destruct a2 as [out j]. injection H as -> ->.
  apply int_mul_Ok in E as [Hrange ->].
  pose proof (wasted_pixels_Ok _ _ E0) as Hw.
  pose proof (first_offset_Ok _ _ _ Hw E1) as Hrow.
  apply copy_rows_inv in E2 as (_ & Hl & Hcells & _).
  unfold malloc in Hl. rewrite length_replicate in Hl.
  split; [reflexivity|]. split; [exact Hrange|]. split; [exact Hl|].
  split; [eauto|].
  intros h c Hh Hc.
  destruct (Hcells (h - 1) c) as (raw & Hr1 & Hr2); [lia | lia |].
  exists raw. rewrite <- Hrow. split; [exact Hr1|].
  rewrite <- Hr2. f_equal; lia.
Qed.

Lemma convert_inv filecontents hdr output :
  convert filecontents hdr = Ok output ->
  exists copied outputlen,
    extract filecontents hdr = Ok (copied, outputlen) /\
    length output = Z.to_nat outputlen /\
    (forall i, 0 <= i < outputlen ->
       exists raw, fetch copied i = Ok raw /\
                   output !! Z.to_nat i = Some (symbol raw)).
Proof.
  unfold convert. intros H.
  bind_inv H. destruct a as [copied outputlen]. bind_inv H.
  exists copied, outputlen. split; [exact E|].
  apply remap_inv in E0 as (_ & Hcells & _).
  apply write_inv in H as (Hlen & Hbytes).
  split; [exact Hlen|].
  intros i Hi.
  destruct (Hcells i) as (raw & Hr1 & Hr2); [lia|].
  destruct (Hbytes (Z.to_nat i)) as (b & Hb1 & Hb2); [lia|].
  exists raw. split; [exact Hr1|].
  rewrite Z.add_0_l in Hr1, Hr2.
  rewrite Z.add_0_l, Z2Nat.id in Hb2 by lia.
  rewrite Hb1. congruence.
Qed.

Lemma main_Done_inv filecontents output :
  main filecontents = Ok (Done output) ->
  exists hdr,
    read_header filecontents = Ok hdr /\ bitcount hdr = 8 /\
    convert filecontents hdr = Ok output.
Proof.
  unfold main. intros H. bind_inv H. exists a.
  destruct (Z.eqb_spec (bitcount a) 8) as [H8|Hne]; cbn [negb] in H;
    [|discriminate].
  bind_inv H. injection H as <-. auto.
Qed.

(** C1: when [main] writes an output, each output byte is the symbol of
    the raw byte copied to the same place by the extraction ([0xFF] gives
    [0x00], [0x00] gives [0x01], anything else gives [0x02]), so each
    output byte is [0x00], [0x01] or [0x02]. *)
Theorem output_symbols (filecontents output : list byte) :
  main filecontents = Ok (Done output) ->
  exists hdr copied outputlen,
    read_header filecontents = Ok hdr /\ bitcount hdr = 8 /\
    extract filecontents hdr = Ok (copied, outputlen) /\
    length output = Z.to_nat outputlen /\
    (forall i, 0 <= i < outputlen ->
       exists raw out,
         fetch copied i = Ok raw /\ output !! Z.to_nat i = Some out /\
         ((raw = xff /\ out = x00) \/
          (raw = x00 /\ out = x01) \/
          (raw <> xff /\ raw <> x00 /\ out = x02))) /\
    (forall out, out ∈ output -> out = x00 \/ out = x01 \/ out = x02).
Proof.
  intros H.
  destruct (main_Done_inv _ _ H) as (hdr & Hh & H8 & Hc).
  destruct (convert_inv _ _ _ Hc) as (copied & outputlen & He & Hlen & Hsym).
  exists hdr, copied, outputlen.
  repeat (split; [assumption|]). split.
  - intros i Hi. destruct (Hsym i Hi) as (raw & Hr & Ho).
    exists raw, (symbol raw). split; [exact Hr|]. split; [exact Ho|].
    apply symbol_cases.
  - intros out Hin. apply list_elem_of_lookup in Hin as [k Hk].
    pose proof (lookup_lt_Some _ _ _ Hk) as Hlt.
    destruct (Hsym (Z.of_nat k)) as (raw & _ & Ho); [lia|].
    rewrite Nat2Z.id, Hk in Ho. injection Ho as ->.
    apply symbol_range.
Qed.

Lemma output_symbols_witness :
  exists hdr copied outputlen,
    read_header bmp_2x2 = Ok hdr /\ bitcount hdr = 8 /\
    extract bmp_2x2 hdr = Ok (copied, outputlen) /\
    length [x01; x01; x00; x02] = Z.to_nat outputlen /\
    (forall i, 0 <= i < outputlen ->
       exists raw out,
         fetch copied i = Ok raw /\
         [x01; x01; x00; x02] !! Z.to_nat i = Some out /\
         ((raw = xff /\ out = x00) \/
          (raw = x00 /\ out = x01) \/
          (raw <> xff /\ raw <> x00 /\ out = x02))) /\
    (forall out, out ∈ [x01; x01; x00; x02] ->
                 out = x00 \/ out = x01 \/ out = x02).
Proof.
  apply (output_symbols bmp_2x2 [x01; x01; x00; x02]).
  vm_compute. reflexivity.
Defined.

(** ** Row order *)

Lemma row_start_consistent hdr h :
  consistent hdr -> row_start hdr h = stored_row hdr (height hdr - h).
Proof.
  unfold consistent, row_start, stored_row.
  generalize (padding_per_row hdr). intros p Hc. rewrite Hc. ring.
Qed.

Lemma cell_index_range h c rows w :
  1 <= h <= rows -> 0 <= c < w -> 0 <= (h - 1) * w + c < rows * w.
Proof. intros Hh Hc. nia. Qed.

(** What a completed conversion has put in the output, row by row. *)
Lemma convert_rows filecontents hdr output :
  convert filecontents hdr = Ok output ->
  length output = Z.to_nat (height hdr * width hdr) /\
  (forall h c, 1 <= h <= height hdr -> 0 <= c < width hdr ->
     exists raw,
       load filecontents (row_start hdr h + c) = Ok raw /\
       output !! Z.to_nat ((h - 1) * width hdr + c) = Some (symbol raw)).
Proof.
  intros Hc.
  destruct (convert_inv _ _ _ Hc) as (copied & outputlen & He & Hlen & Hsym).
  destruct (extract_inv _ _ _ _ He) as (-> & _ & _ & _ & Hrows).
  split; [exact Hlen|].
  intros h c Hh Hcol.
  destruct (Hrows h c Hh Hcol) as (raw & Hr1 & Hr2).
  destruct (Hsym ((h - 1) * width hdr + c)) as (raw' & Hr3 & Ho);
    [apply cell_index_range; assumption|].
  exists raw. split; [exact Hr1|]. rewrite Ho. congruence.
Qed.

(** C2, as stated, fails on [inconsistent_bmp] (2x2, size field 5, so
    padding 0): the rows are read at offsets 41 and 39, and the last output
    row is the symbols of the bytes at 39 and 40, not of the first stored
    row at 38 and 39.  It fails on [zero_size_bmp] too (2x2, size field 0,
    so padding -2 and a row step of 0): both output rows are the symbols
    of the bytes at 38 and 39, and the last stored row at 40 and 41 is
    never read. *)
Lemma rows_bottom_up_counterexample :
  (main inconsistent_bmp = Ok (Done [x02; x02; x01; x02]) /\
   row_start (Header 38 2 2 8 5) 2 = 39 /\
   symbol <$> take 2 (drop 38 inconsistent_bmp) = [x00; x01] /\
   take 2 (drop 2 [x02; x02; x01; x02])
   <> symbol <$> take 2 (drop 38 inconsistent_bmp)) /\
  (main zero_size_bmp = Ok (Done [x00; x01; x00; x01]) /\
   padding_per_row (Header 38 2 2 8 0) = -2 /\
   consistent (Header 38 2 2 8 0) /\
   symbol <$> take 2 (drop 40 zero_size_bmp) = [x02; x02] /\
   take 2 [x00; x01; x00; x01]
   <> symbol <$> take 2 (drop 40 zero_size_bmp)).
Proof. repeat split; discriminate. Qed.

(** C2 (amended): when [main] writes an output and the height is at least
    1, the output has [height] rows of [width] bytes (of no byte when the
    width is negative), and row [h] (counted from 1) holds the symbols of
    the [width] bytes read at [row_start h]; when moreover the padding is
    not negative and the size field is consistent with it (it equals
    [height * (width + padding_per_row)]), output row 0 is the remapped
    last stored row and output row [height - 1] the remapped first stored
    row. *)
Theorem rows_bottom_up (filecontents : list byte) (hdr : header)
    (output : list byte) :
  read_header filecontents = Ok hdr ->
  main filecontents = Ok (Done output) ->
  1 <= height hdr ->
  Z.of_nat (length output) = height hdr * Z.max 0 (width hdr) /\
  (forall h c, 1 <= h <= height hdr -> 0 <= c < width hdr ->
     exists raw,
       load filecontents (row_start hdr h + c) = Ok raw /\
       output !! Z.to_nat ((h - 1) * width hdr + c) = Some (symbol raw)) /\
  (0 <= padding_per_row hdr ->
   consistent hdr ->
   forall c, 0 <= c < width hdr ->
     exists last first,
       load filecontents (stored_row hdr (height hdr - 1) + c) = Ok last /\
       output !! Z.to_nat c = Some (symbol last) /\
       load filecontents (stored_row hdr 0 + c) = Ok first /\
       output !! Z.to_nat ((height hdr - 1) * width hdr + c)
       = Some (symbol first)).
Proof.
  intros Hh Hmain Hheight.
  destruct (main_Done_inv _ _ Hmain) as (hdr' & Hh' & _ & Hc).
  assert (hdr' = hdr) as -> by congruence.
  destruct (convert_rows _ _ _ Hc) as (Hlen & Hrows).
  split; [|split; [exact Hrows|]].
  - rewrite Hlen. destruct (Z_le_gt_dec 0 (width hdr)) as [Hw|Hw].
    + rewrite Z.max_r by lia. rewrite Z2Nat.id by nia. reflexivity.
    + rewrite Z.max_l by lia.
      replace (Z.to_nat (height hdr * width hdr)) with 0%nat by nia.
      lia.
  - intros _ Hcons c Hcol.
    destruct (Hrows 1 c) as (last & Hl1 & Hl2); [lia | lia |].
    destruct (Hrows (height hdr) c) as (first & Hf1 & Hf2); [lia | lia |].
    rewrite row_start_consistent in Hl1, Hf1 by exact Hcons.
    exists last, first.
    replace (height hdr - height hdr) with 0 in Hf1 by lia.
    replace ((1 - 1) * width hdr + c) with c in Hl2 by lia.
    auto.
Qed.

Lemma rows_bottom_up_witness :
  Z.of_nat (length [x01; x01; x02; x00; x02; x01]) = 2 * 3 /\
  (forall c, 0 <= c < 3 ->
     exists last first,
       load bmp_3x2 (stored_row (Header 38 3 2 8 8) (2 - 1) + c) = Ok last /\
       [x01; x01; x02; x00; x02; x01] !! Z.to_nat c = Some (symbol last) /\
       load bmp_3x2 (stored_row (Header 38 3 2 8 8) 0 + c) = Ok first /\
       [x01; x01; x02; x00; x02; x01] !! Z.to_nat ((2 - 1) * 3 + c)
       = Some (symbol first)).
Proof.
  destruct (rows_bottom_up bmp_3x2 (Header 38 3 2 8 8)
              [x01; x01; x02; x00; x02; x01]) as (H1 & _ & H2).
  - vm_compute. reflexivity.
  - vm_compute. reflexivity.
  - simpl. lia.
  - split; [exact H1|]. apply H2.
    + vm_compute. discriminate.
    + vm_compute. reflexivity.
Defined.

(** ** The conversion of a valid file completes *)

Lemma store_in_range (a : block) j v :
  0 <= j < Z.of_nat (length a) ->
  store a j v = Ok (<[Z.to_nat j := Some v]> a).
Proof. intros H. apply store_Ok. auto. Qed.

Lemma copy_row_total (n : nat) :
  forall filecontents offset w (out : block) j,
    Z.of_nat (length filecontents) <= int_max ->
    Z.of_nat (length out) <= int_max ->
    0 <= w -> 0 <= offset + w ->
    offset + w + Z.of_nat n <= Z.of_nat (length filecontents) ->
    w + Z.of_nat n <= int_max ->
    0 <= j -> j + Z.of_nat n <= Z.of_nat (length out) ->
    exists out',
      copy_row n filecontents offset w out j = Ok (out', j + Z.of_nat n) /\
      length out' = length out.
Proof.
  induction n as [|n IH];
    intros filecontents offset w out j Hfile Hout Hw Hlo Hhi Hwn Hj Hjn.
  - exists out. rewrite Z.add_0_r. auto.
  - cbn [copy_row].
    destruct (load_in_bounds filecontents (offset + w)) as (b & Hb & _);
      [lia|].
    run (int_add_in_range offset w).
    run Hb.
    run (store_in_range out j b).
    run (int_add_in_range j 1).
    run (int_add_in_range w 1).
    destruct (IH filecontents offset (w + 1)
                (<[Z.to_nat j := Some b]> out) (j + 1))
      as (out' & Hrun & Hlen);
      rewrite ?length_insert; try lia.
    exists out'. rewrite length_insert in Hlen.
    split; [|exact Hlen].
    rewrite Hrun. do 2 f_equal. lia.
Qed.

Lemma copy_rows_total (n : nat) :
  forall filecontents w wasted h offset (out : block) j,
    Z.of_nat (length filecontents) <= int_max ->
    Z.of_nat (length out) <= int_max ->
    0 <= w -> 0 <= w + wasted <= int_max ->
    offset + w <= Z.of_nat (length filecontents) ->
    0 <= offset - (Z.of_nat n - 1) * (w + wasted) ->
    0 <= h -> h + Z.of_nat n <= int_max ->
    0 <= j -> j + Z.of_nat n * w <= Z.of_nat (length out) ->
    exists out',
      copy_rows n filecontents w wasted h offset out j
      = Ok (out', j + Z.of_nat n * w) /\
      length out' = length out.
Proof.
  induction n as [|n IH];
    intros filecontents w wasted h offset out j
           Hfile Hout Hw Hstep Hhi Hlo Hh Hhn Hj Hjn.
  - exists out. rewrite Z.add_0_r. auto.
  - cbn [copy_rows].
    assert (Hsteps : 0 <= Z.of_nat n * (w + wasted)) by nia.
    assert (Hcols : 0 <= Z.of_nat n * w) by nia.
    replace (Z.of_nat (S n) - 1) with (Z.of_nat n) in Hlo by lia.
    replace (Z.of_nat (S n) * w) with (w + Z.of_nat n * w) in * by lia.
    destruct (copy_row_total (Z.to_nat w) filecontents offset 0 out j)
      as (out1 & Hrow & Hlen1); try lia.
    rewrite Hrow. cbn [mbind exec_bind].
    run (int_add_in_range h 1).
    run (int_add_in_range w wasted).
    run (int_sub_in_range offset (w + wasted)).
    destruct (IH filecontents w wasted (h + 1) (offset - (w + wasted))
                out1 (j + Z.of_nat (Z.to_nat w)))
      as (out' & Hrun & Hlen); try lia.
    exists out'. split; [|congruence].
    rewrite Hrun. do 2 f_equal. lia.
Qed.

Lemma remap_total (n : nat) :
  forall i (out : block),
    0 <= i -> i + Z.of_nat n <= int_max ->
    (forall t, 0 <= t < Z.of_nat n -> exists b, fetch out (i + t) = Ok b) ->
    exists out', remap n i out = Ok out'.
Proof.
  induction n as [|n IH]; intros i out Hi Hin Hcells.
  - exists out. reflexivity.
  - cbn [remap].
    destruct (Hcells 0) as (b & Hb); [lia|]. rewrite Z.add_0_r in Hb.
    pose proof (fetch_Ok_lt _ _ _ Hb) as Hlt.
    run Hb.
    pose proof (store_in_range out i (symbol b) Hlt) as Hst.
    run Hst.
    run (int_add_in_range i 1).
    apply IH; [lia | lia |].
    intros t Ht. destruct (Hcells (t + 1)) as (b' & Hb'); [lia|].
    exists b'. rewrite (fetch_store_ne _ _ _ _ (i + 1 + t) Hst) by lia.
    rewrite <- Hb'. f_equal; lia.
Qed.

Lemma write_total (n : nat) :
  forall (out : block) i,
    (forall t, 0 <= t < Z.of_nat n -> exists b, fetch out (i + t) = Ok b) ->
    exists bytes, write n out i = Ok bytes.
Proof.
  induction n as [|n IH]; intros out i Hcells.
  - exists []. reflexivity.
  - cbn [write].
    destruct (Hcells 0) as (b & Hb); [lia|]. rewrite Z.add_0_r in Hb.
    run Hb.
    destruct (IH out (i + 1)) as (rest & Hrest).
    { intros t Ht. destruct (Hcells (t + 1)) as (b' & Hb'); [lia|].
      exists b'. rewrite <- Hb'. f_equal; lia. }
    rewrite Hrest. eexists. reflexivity.
Qed.

Lemma cell_decompose t w rows :
  0 < w -> 0 <= t < rows * w ->
  exists r c, 0 <= r < rows /\ 0 <= c < w /\ t = r * w + c.
Proof.
  intros Hw Ht. exists (t / w), (t mod w).
  pose proof (Z.mod_pos_bound t w Hw) as Hc.
  pose proof (Z.div_mod t w ltac:(lia)) as Hdm.
  assert (0 <= t / w) by (apply Z.div_pos; lia).
  assert (t / w < rows) by (apply Z.div_lt_upper_bound; lia).
  repeat split; lia.
Qed.

Section ValidFile.

Variable filecontents : list byte.
Variable hdr : header.
Hypothesis valid : valid_bmp filecontents hdr.

Let w := width hdr.
Let h := height hdr.
Let p := padding_per_row hdr.
Let bb := bytebuffer hdr.
Let po := paintoffset hdr.

Lemma valid_bounds :
  0 < w /\ 0 < h /\ 0 <= p /\ 0x26 <= po /\
  po + bb <= Z.of_nat (length filecontents) <= int_max /\
  bb = h * (w + p) /\
  0 <= w * h <= bb /\ h * w = w * h /\
  p <= bb /\ h <= bb /\ w + p <= bb.
Proof using valid.
  destruct valid as [_ _ Hw Hh Hp Hsize Hoff Hdata Hlen].
  unfold consistent in Hsize. subst w h p bb po.
  revert Hp Hsize. generalize (padding_per_row hdr). intros q Hp Hsize.
  repeat split; try assumption; try lia; nia.
Qed.

Lemma valid_wasted_pixels : wasted_pixels hdr = Ok p.
Proof using valid.
  destruct valid_bounds
    as (Hw & Hh & Hp & Hoff & Hdata & Hsize & Hwh & Hhw & Hpb & Hhb & Hrow).
  unfold wasted_pixels. fold w h bb.
  run (int_mul_in_range w h).
  run (int_sub_in_range bb (w * h)).
  unfold int_div. destruct (Z.eqb_spec h 0) as [|_]; [lia|].
  apply checked_in_range. fold p. unfold int_min, int_max in *. lia.
Qed.

Lemma valid_first_offset : first_offset hdr p = Ok (bb - w + po - p).
Proof using valid.
  destruct valid_bounds
    as (Hw & Hh & Hp & Hoff & Hdata & Hsize & Hwh & Hhw & Hpb & Hhb & Hrow).
  unfold first_offset. fold w bb po.
  run (int_sub_in_range bb w).
  run (int_add_in_range (bb - w) po).
  apply int_sub_in_range. unfold int_min, int_max in *. lia.
Qed.

Lemma valid_last_row : bb - w + po - p - (h - 1) * (w + p) = po.
Proof using valid.
  destruct valid_bounds as (_ & _ & _ & _ & _ & Hsize & _).
  rewrite Hsize. ring.
Qed.

Lemma valid_extract :
  exists copied, extract filecontents hdr = Ok (copied, h * w).
Proof using valid.
  destruct valid_bounds
    as (Hw & Hh & Hp & Hoff & Hdata & Hsize & Hwh & Hhw & Hpb & Hhb & Hrow).
  pose proof valid_last_row as Hlast.
  unfold extract. fold w h.
  run (int_mul_in_range h w).
  run valid_wasted_pixels.
  cbv zeta. unfold malloc.
  run valid_first_offset.
  destruct (copy_rows_total (Z.to_nat h) filecontents w p 1
              (bb - w + po - p) (replicate (Z.to_nat (h * w)) None) 0)
    as (copied & Hcopy & _);
    rewrite ?length_replicate, ?Z2Nat.id by lia;
    unfold int_max in *; try lia.
  rewrite Hcopy. cbn [mbind exec_bind]. eauto.
Qed.

Lemma valid_convert : exists output, convert filecontents hdr = Ok output.
Proof using valid.
  destruct valid_bounds
    as (Hw & Hh & Hp & Hoff & Hdata & Hsize & Hwh & Hhw & Hpb & Hhb & Hrow).
  destruct valid_extract as (copied & He).
  destruct (extract_inv _ _ _ _ He) as (_ & _ & _ & _ & Hrows).
  fold w h in Hrows.
  assert (Hcells : forall t, 0 <= t < h * w ->
                             exists b, fetch copied t = Ok b).
  { intros t Ht.
    destruct (cell_decompose t w h Hw Ht) as (r & c & Hr & Hc & ->).
    destruct (Hrows (r + 1) c) as (raw & _ & Hraw); [lia | lia |].
    exists raw. rewrite <- Hraw. f_equal; lia. }
  destruct (remap_total (Z.to_nat (h * w)) 0 copied) as (out & Hremap).
  { lia. }
  { unfold int_max in *. lia. }
  { intros t Ht. rewrite Z.add_0_l. apply Hcells. lia. }
  destruct (write_total (Z.to_nat (h * w)) out 0) as (bytes & Hwrite).
  { intros t Ht. rewrite Z.add_0_l.
    destruct (Hcells t) as (b & Hb); [lia|].
    apply remap_inv in Hremap as (_ & Hsym & _).
    destruct (Hsym t) as (b' & _ & Hb'); [lia|].
    rewrite Z.add_0_l in Hb'. eauto. }
  exists bytes. unfold convert. rewrite He. cbn [mbind exec_bind].
  rewrite Hremap. cbn [mbind exec_bind]. exact Hwrite.
Qed.

End ValidFile.

(** C3: for a valid 8-bit file, [main] writes an output of exactly
    [width * height] bytes, and every output byte is the symbol of a pixel
    byte: the byte of a column below [width] of a stored row, never one of
    the padding bytes that follow the [width] pixels of a row. *)
Theorem valid_bmp_output (filecontents : list byte) (hdr : header) :
  valid_bmp filecontents hdr ->
  exists output,
    main filecontents = Ok (Done output) /\
    Z.of_nat (length output) = width hdr * height hdr /\
    (forall i, 0 <= i < width hdr * height hdr ->
       exists r c raw,
         0 <= r < height hdr /\ 0 <= c < width hdr /\
         i = (height hdr - 1 - r) * width hdr + c /\
         load filecontents (stored_row hdr r + c) = Ok raw /\
         output !! Z.to_nat i = Some (symbol raw)).
Proof.
  intros Hvalid.
  destruct (valid_convert _ _ Hvalid) as (output & Hc).
  destruct (convert_rows _ _ _ Hc) as (Hlen & Hrows).
  destruct Hvalid as [Hh H8 Hw Hht _ Hsize _ _ _].
  exists output. split; [|split].
  - rewrite (main_accepted _ _ Hh H8), Hc. reflexivity.
  - lia.
  - intros i Hi.
    destruct (cell_decompose i (width hdr) (height hdr) Hw)
      as (r & c & Hr & Hcol & ->); [lia|].
    destruct (Hrows (r + 1) c) as (raw & Hraw & Hout); [lia | lia |].
    rewrite (row_start_consistent _ _ Hsize) in Hraw.
    exists (height hdr - (r + 1)), c, raw.
    split; [lia|]. split; [exact Hcol|]. split; [f_equal; lia|].
    split; [exact Hraw|].
    rewrite <- Hout. do 2 f_equal. lia.
Qed.

Lemma valid_bmp_output_witness :
  exists output,
    main bmp_3x2 = Ok (Done output) /\
    Z.of_nat (length output) = 3 * 2 /\
    (forall i, 0 <= i < 3 * 2 ->
       exists r c raw,
         0 <= r < 2 /\ 0 <= c < 3 /\
         i = (2 - 1 - r) * 3 + c /\
         load bmp_3x2 (stored_row (Header 38 3 2 8 8) r + c) = Ok raw /\
         output !! Z.to_nat i = Some (symbol raw)).
Proof.
  apply (valid_bmp_output bmp_3x2 (Header 38 3 2 8 8)).
  constructor; try (vm_compute; reflexivity);
    try (vm_compute; discriminate).
Defined.

(** * Further properties *)

(** ** [hiread]: the lengths it can read *)

Lemma shl_u32_Ok u n v : shl_u32 u n = Ok v -> 0 <= n < 32.
Proof.
  unfold shl_u32.
  destruct (Z.leb_spec 0 n); destruct (Z.ltb_spec n 32); cbn [andb];
    try discriminate.
  lia.
Qed.

(** The shift of iteration [i] is by [8 * i] bits, so a run that returns
    has not gone past [i = 3]. *)
Lemma hiread_loop_count (n : nat) :
  forall contents offset i k v,
    hiread_loop n contents offset i k = Ok v ->
    n = 0%nat \/ i + Z.of_nat n <= 4.
Proof.
  induction n as [|n IH]; intros contents offset i k v H; [auto|].
  cbn [hiread_loop] in H.
  bind_inv H. bind_inv H. bind_inv H. bind_inv H. bind_inv H.
  apply int_mul_Ok in E1 as [_ ->].
  apply shl_u32_Ok in E2.
  apply int_add_Ok in E3 as [_ ->].
  destruct (IH _ _ _ _ _ H) as [->|Hn]; right; lia.
Qed.

(** X1: [hiread] returns a value exactly when the length is zero or
    negative (the loop does not run and the result is 0, whatever the
    offset) or the length is at most 4 and the bytes lie inside the
    buffer; a length of 5 or more never returns, the fifth shift being by
    32 bits. *)
Theorem hiread_returns_iff (contents : list byte) (offset length : Z) :
  Z.of_nat (List.length contents) <= int_max ->
  ((exists v, hiread contents offset length = Ok v) <->
   length <= 0 \/
   (length <= 4 /\ 0 <= offset /\
    offset + length <= Z.of_nat (List.length contents))) /\
  (length <= 0 -> hiread contents offset length = Ok 0).
Proof.
  intros Hfit.
  assert (Hzero : length <= 0 -> hiread contents offset length = Ok 0).
  { intros Hl. unfold hiread.
    replace (Z.to_nat length) with 0%nat by lia. reflexivity. }
  split; [|exact Hzero]. split.
  - intros [v Hv]. destruct (Z_le_gt_dec length 0) as [Hl|Hl]; [auto|].
    right. assert (H1 : 1 <= length) by lia.
    destruct (hiread_in_bounds _ _ _ _ H1 Hv) as [Ho Hb].
    split; [|auto].
    unfold hiread in Hv. apply hiread_loop_count in Hv. lia.
  - intros [Hl|(Hl & Ho & Hb)]; [eauto|].
    destruct (Z_le_gt_dec length 0) as [Hl0|Hl0]; [eauto|].
    eexists. apply hiread_to_signed; [assumption | assumption | lia | lia].
Qed.

Lemma hiread_returns_iff_witness :
  ((exists v, hiread [x01; x02; x03; x04; x05] 0 5 = Ok v) <->
   5 <= 0 \/
   (5 <= 4 /\ 0 <= 0 /\
    0 + 5 <= Z.of_nat (List.length [x01; x02; x03; x04; x05]))) /\
  (5 <= 0 -> hiread [x01; x02; x03; x04; x05] 0 5 = Ok 0).
Proof.
  apply (hiread_returns_iff [x01; x02; x03; x04; x05] 0 5).
  vm_compute. discriminate.
Defined.

(** ** [hiread]: the value and the bytes *)

Lemma hiread_Ok_le_value contents offset length v :
  Z.of_nat (List.length contents) <= int_max ->
  1 <= length <= 4 ->
  hiread contents offset length = Ok v ->
  0 <= offset /\ offset + length <= Z.of_nat (List.length contents) /\
  v = to_signed (le_value contents offset (Z.to_nat length)).
Proof.
  intros Hfit Hl Hv.
  destruct (hiread_in_bounds _ _ _ _ (proj1 Hl) Hv) as [Ho Hb].
  split; [exact Ho|]. split; [exact Hb|].
  rewrite hiread_to_signed in Hv by assumption. congruence.
Qed.

Lemma le_value_lt_2_32 contents offset (n : nat) :
  (n <= 4)%nat -> 0 <= le_value contents offset n < 2 ^ 32.
Proof.
  intros Hn. pose proof (le_value_bound contents offset n) as [H0 Hv].
  split; [exact H0|].
  eapply Z.lt_le_trans; [exact Hv|]. apply Z.pow_le_mono_r; lia.
Qed.

(** X2: a read of 1, 2 or 3 bytes that returns gives a number from 0 to
    [2^(8*length) - 1]; the bits-per-pixel field of [main], read with
    length 2, is thus between 0 and 65535. *)
Theorem hiread_short_range (contents : list byte) (offset length v : Z) :
  Z.of_nat (List.length contents) <= int_max ->
  1 <= length <= 3 ->
  hiread contents offset length = Ok v ->
  0 <= v < 2 ^ (8 * length).
Proof.
  intros Hfit Hl Hv.
  assert (Hl4 : 1 <= length <= 4) by lia.
  destruct (hiread_Ok_le_value _ _ _ _ Hfit Hl4 Hv) as (_ & _ & ->).
  pose proof (le_value_short contents offset (Z.to_nat length) ltac:(lia))
    as Hs.
  pose proof (le_value_bound contents offset (Z.to_nat length)) as Hb.
  rewrite Z2Nat.id in Hb by lia.
  rewrite to_signed_small; [exact Hb|].
  change (2 ^ 31) with 2147483648. lia.
Qed.

Lemma hiread_short_range_witness : 0 <= 8 < 2 ^ (8 * 2).
Proof.
  apply (hiread_short_range bmp_2x2 0x1c 2 8).
  - vm_compute. discriminate.
  - lia.
  - reflexivity.
Defined.

(** Byte [i] of the buffer is digit [i] of the value in base 256. *)
Lemma le_value_digit contents offset (n : nat) :
  forall i : nat, (i < n)%nat ->
    (le_value contents offset n / 2 ^ (8 * Z.of_nat i)) mod 256
    = byte_at contents (offset + Z.of_nat i).
Proof.
  induction n as [|n IH]; intros i Hi; [lia|].
  cbn [le_value].
  pose proof (byte_at_bound contents (offset + Z.of_nat n)) as Hb.
  pose proof (le_value_bound contents offset n) as Hv.
  assert (Hpos : 0 < 2 ^ (8 * Z.of_nat i)) by (apply Z.pow_pos_nonneg; lia).
  destruct (Nat.eq_dec i n) as [->|Hne].
  - rewrite Z.div_add by lia. rewrite Z.div_small by lia.
    rewrite Z.add_0_l. apply Z.mod_small. exact Hb.
  - replace (8 * Z.of_nat n)
      with (8 + 8 * (Z.of_nat n - Z.of_nat i - 1) + 8 * Z.of_nat i) by lia.
    rewrite !Z.pow_add_r by lia. change (2 ^ 8) with 256.
    rewrite Z.mul_assoc. rewrite Z.div_add by lia.
    replace (byte_at contents (offset + Z.of_nat n)
             * (256 * 2 ^ (8 * (Z.of_nat n - Z.of_nat i - 1))))
      with (byte_at contents (offset + Z.of_nat n)
            * 2 ^ (8 * (Z.of_nat n - Z.of_nat i - 1)) * 256) by ring.
    rewrite Z.mod_add by lia. apply IH. lia.
Qed.

(** X3: nothing is lost in a read that returns: byte [i] of the bytes read
    is digit [i], in base 256, of the result taken as an [unsigned int]. *)
Theorem hiread_bytes_recovered (contents : list byte)
    (offset length v i : Z) :
  Z.of_nat (List.length contents) <= int_max ->
  1 <= length <= 4 ->
  hiread contents offset length = Ok v ->
  0 <= i < length ->
  byte_at contents (offset + i) = (to_unsigned v / 2 ^ (8 * i)) mod 256.
Proof.
  intros Hfit Hl Hv Hi.
  destruct (hiread_Ok_le_value _ _ _ _ Hfit Hl Hv) as (_ & _ & ->).
  unfold to_unsigned. rewrite to_signed_mod.
  rewrite (Z.mod_small _ (2 ^ 32)) by (apply le_value_lt_2_32; lia).
  pose proof (le_value_digit contents offset (Z.to_nat length) (Z.to_nat i)
                ltac:(lia)) as Hd.
  rewrite Z2Nat.id in Hd by lia. symmetry. exact Hd.
Qed.

Lemma hiread_bytes_recovered_witness :
  byte_at [x00; x00; x00; x80] (0 + 3)
  = (to_unsigned (-2147483648) / 2 ^ (8 * 3)) mod 256.
Proof.
  apply (hiread_bytes_recovered [x00; x00; x00; x80] 0 4).
  - vm_compute. discriminate.
  - lia.
  - reflexivity.
  - lia.
Defined.

Lemma le_value_ext c1 c2 o1 o2 (n : nat) :
  (forall i : nat, (i < n)%nat ->
     byte_at c1 (o1 + Z.of_nat i) = byte_at c2 (o2 + Z.of_nat i)) ->
  le_value c1 o1 n = le_value c2 o2 n.
Proof.
  induction n as [|n IH]; intros H; [reflexivity|].
  cbn [le_value]. rewrite IH by (intros i Hi; apply H; lia).
  rewrite (H n) by lia. reflexivity.
Qed.

(** X4: the result depends on nothing but the bytes read: two reads of
    the same length, in two buffers at two offsets, over equal bytes give
    the same result. *)
Theorem hiread_local (c1 c2 : list byte) (o1 o2 length : Z) :
  Z.of_nat (List.length c1) <= int_max ->
  Z.of_nat (List.length c2) <= int_max ->
  1 <= length <= 4 ->
  0 <= o1 -> o1 + length <= Z.of_nat (List.length c1) ->
  0 <= o2 -> o2 + length <= Z.of_nat (List.length c2) ->
  (forall i, 0 <= i < length ->
     c1 !! Z.to_nat (o1 + i) = c2 !! Z.to_nat (o2 + i)) ->
  hiread c1 o1 length = hiread c2 o2 length.
Proof.
  intros F1 F2 Hl Ho1 Hb1 Ho2 Hb2 Hbytes.
  rewrite !hiread_to_signed by assumption.
  do 2 f_equal. apply le_value_ext.
  intros i Hi. unfold byte_at. rewrite Hbytes by lia. reflexivity.
Qed.

Lemma hiread_local_witness :
  hiread bmp_2x2 0x12 4 = hiread bmp_2x2 0x16 4.
Proof.
  apply (hiread_local bmp_2x2 bmp_2x2 0x12 0x16 4);
    try (vm_compute; discriminate); try lia.
  intros i Hi.
  assert (i = 0 \/ i = 1 \/ i = 2 \/ i = 3) as [->|[->|[->| ->]]] by lia;
    reflexivity.
Defined.

Lemma le_value_4_split contents offset :
  le_value contents offset 4
  = le_value contents offset 2 + 65536 * le_value contents (offset + 2) 2.
Proof.
  cbn [le_value].
  change (Z.of_nat 0) with 0. change (Z.of_nat 1) with 1.
  change (Z.of_nat 2) with 2. change (Z.of_nat 3) with 3.
  replace (offset + 2 + 0) with (offset + 2) by lia.
  replace (offset + 2 + 1) with (offset + 3) by lia.
  change (2 ^ (8 * 0)) with 1. change (2 ^ (8 * 1)) with 256.
  change (2 ^ (8 * 2)) with 65536. change (2 ^ (8 * 3)) with 16777216.
  ring.
Qed.

(** X5: a 4-byte read is made of its two 2-byte halves: with [lo] read at
    [offset] and [hi] at [offset + 2], the 4-byte read at [offset] returns
    [lo + 65536 * hi] converted to [int]. *)
Theorem hiread_halves (contents : list byte) (offset lo hi : Z) :
  Z.of_nat (List.length contents) <= int_max ->
  hiread contents offset 2 = Ok lo ->
  hiread contents (offset + 2) 2 = Ok hi ->
  hiread contents offset 4 = Ok (to_signed (lo + 65536 * hi)).
Proof.
  intros Hfit Hlo Hhi.
  assert (H2 : 1 <= 2 <= 4) by lia.
  destruct (hiread_Ok_le_value _ _ _ _ Hfit H2 Hlo) as (Ho & _ & ->).
  destruct (hiread_Ok_le_value _ _ _ _ Hfit H2 Hhi) as (_ & Hb & ->).
  rewrite hiread_to_signed by (assumption || lia).
  change (Z.to_nat 4) with 4%nat. change (Z.to_nat 2) with 2%nat.
  rewrite le_value_4_split.
  pose proof (le_value_short contents offset 2 ltac:(lia)) as Hl.
  pose proof (le_value_short contents (offset + 2) 2 ltac:(lia)) as Hh.
  rewrite (to_signed_small (le_value contents offset 2))
    by (change (2 ^ 31) with 2147483648; lia).
  rewrite (to_signed_small (le_value contents (offset + 2) 2))
    by (change (2 ^ 31) with 2147483648; lia).
  reflexivity.
Qed.

Lemma hiread_halves_witness :
  hiread [x34; x12; xcd; xab] 0 4 = Ok (to_signed (0x1234 + 65536 * 0xabcd)).
Proof.
  apply (hiread_halves [x34; x12; xcd; xab] 0 0x1234 0xabcd).
  - vm_compute. discriminate.
  - reflexivity.
  - reflexivity.
Defined.

(** ** [main] on a file too short for its header *)

Lemma hiread_field_short contents offset length :
  0 <= offset <= 0x22 ->
  1 <= length <= 4 ->
  Z.of_nat (List.length contents) < offset + length ->
  hiread contents offset length = Fault OutOfBounds.
Proof.
  intros Ho Hl Hlen. apply hiread_short; unfold int_max; lia.
Qed.

Lemma read_header_short filecontents :
  Z.of_nat (length filecontents) < 0x26 ->
  read_header filecontents = Fault OutOfBounds.
Proof.
  intros Hlen. unfold read_header.
  assert (Hfit : Z.of_nat (length filecontents) <= int_max)
    by (unfold int_max; lia).
  destruct (Z_lt_dec (Z.of_nat (length filecontents)) (0xa + 4)).
  { rewrite (hiread_field_short _ 0xa 4) by lia. reflexivity. }
  rewrite (hiread_to_signed _ 0xa) by lia. cbn [mbind exec_bind].
  destruct (Z_lt_dec (Z.of_nat (length filecontents)) (0x12 + 4)).
  { rewrite (hiread_field_short _ 0x12 4) by lia. reflexivity. }
  rewrite (hiread_to_signed _ 0x12) by lia. cbn [mbind exec_bind].
  destruct (Z_lt_dec (Z.of_nat (length filecontents)) (0x16 + 4)).
  { rewrite (hiread_field_short _ 0x16 4) by lia. reflexivity. }
  rewrite (hiread_to_signed _ 0x16) by lia. cbn [mbind exec_bind].
  destruct (Z_lt_dec (Z.of_nat (length filecontents)) (0x1c + 2)).
  { rewrite (hiread_field_short _ 0x1c 2) by lia. reflexivity. }
  rewrite (hiread_to_signed _ 0x1c) by lia. cbn [mbind exec_bind].
  rewrite (hiread_field_short _ 0x22 4) by lia. reflexivity.
Qed.

(** X6: on a file of fewer than 38 bytes, the empty file included, [main]
    reads a header field outside the file, whatever the bytes of the file
    are (the format check comes after the five header reads). *)
Theorem main_short_file (filecontents : list byte) :
  Z.of_nat (length filecontents) < 0x26 ->
  main filecontents = Fault OutOfBounds.
Proof.
  intros Hlen. unfold main.
  rewrite (bind_eq_Fault _ _ _ (read_header_short _ Hlen)). reflexivity.
Qed.

Lemma main_short_file_witness : main [] = Fault OutOfBounds.
Proof. apply (main_short_file []). simpl. lia. Defined.

(** ** [main] on degenerate dimensions *)

Lemma copy_rows_no_columns (n : nat) :
  forall filecontents w wasted h offset (out : block) j,
    w <= 0 ->
    int_min <= w + wasted <= int_max ->
    int_min <= h -> h + Z.of_nat n <= int_max ->
    (forall r, 0 <= r <= Z.of_nat n ->
       int_min <= offset - r * (w + wasted) <= int_max) ->
    copy_rows n filecontents w wasted h offset out j = Ok (out, j).
Proof.
  induction n as [|n IH];
    intros filecontents w wasted h offset out j Hw Hstep Hh Hhn Hoff;
    [reflexivity|].
  cbn [copy_rows].
  replace (Z.to_nat w) with 0%nat by lia. cbn [copy_row mbind exec_bind].
  run (int_add_in_range h 1).
  run (int_add_in_range w wasted).
  pose proof (Hoff 1 ltac:(lia)) as H1.
  run (int_sub_in_range offset (w + wasted)).
  apply IH; try lia.
  intros r Hr. pose proof (Hoff (r + 1) ltac:(lia)) as Hr1.
  replace (offset - (w + wasted) - r * (w + wasted))
    with (offset - (r + 1) * (w + wasted)) by ring.
  exact Hr1.
Qed.

(** X7: a width of 0 is not refused: with bits-per-pixel 8, at least one
    row and a non-negative offset and size that fit an [int] together, no
    byte of the file is read after the header and [main] writes the empty
    output. *)
Theorem zero_width_empty_output (filecontents : list byte) (hdr : header) :
  read_header filecontents = Ok hdr ->
  bitcount hdr = 8 ->
  width hdr = 0 ->
  1 <= height hdr < int_max ->
  0 <= paintoffset hdr ->
  0 <= bytebuffer hdr ->
  paintoffset hdr + bytebuffer hdr <= int_max ->
  main filecontents = Ok (Done []).
Proof.
  intros Hh H8 Hw Hht Hpo Hbb Hsum.
  rewrite (main_accepted _ _ Hh H8).
  set (q := Z.quot (bytebuffer hdr) (height hdr)).
  assert (Hq : 0 <= q /\ height hdr * q <= bytebuffer hdr).
  { subst q. rewrite Z.quot_div_nonneg by lia. split.
    - apply Z.div_pos; lia.
    - apply Z.mul_div_le. lia. }
  destruct Hq as [Hq0 Hq1].
  assert (Hqb : q <= bytebuffer hdr) by nia.
  assert (Hwasted : wasted_pixels hdr = Ok q).
  { unfold wasted_pixels. rewrite Hw.
    run (int_mul_in_range 0 (height hdr)).
    run (int_sub_in_range (bytebuffer hdr) (0 * height hdr)).
    unfold int_div. destruct (Z.eqb_spec (height hdr) 0) as [|_]; [lia|].
    replace (bytebuffer hdr - 0 * height hdr) with (bytebuffer hdr) by lia.
    apply checked_in_range. fold q. unfold int_min, int_max in *. lia. }
  assert (Hfirst : first_offset hdr q
                   = Ok (bytebuffer hdr - 0 + paintoffset hdr - q)).
  { unfold first_offset. rewrite Hw.
    run (int_sub_in_range (bytebuffer hdr) 0).
    run (int_add_in_range (bytebuffer hdr - 0) (paintoffset hdr)).
    apply int_sub_in_range. unfold int_min, int_max in *. lia. }
  unfold convert, extract. rewrite Hw.
  run (int_mul_in_range (height hdr) 0).
  run Hwasted.
  replace (height hdr * 0) with 0 by lia.
  cbv zeta. unfold malloc. cbn [Z.to_nat replicate].
  run Hfirst.
  rewrite copy_rows_no_columns; unfold int_min, int_max in *; try lia.
  - reflexivity.
  - intros r Hr. rewrite Z2Nat.id in Hr by lia.
    assert (r * q <= height hdr * q) by nia.
    assert (0 <= r * q) by nia.
    lia.
Qed.

Lemma zero_width_empty_output_witness :
  main (bmp_header 38 0 3 8 7 ++ [xff; x10; x00]) = Ok (Done []).
Proof.
  apply (zero_width_empty_output _ (Header 38 0 3 8 7));
    try reflexivity; unfold int_max; simpl; lia.
Defined.

(** X8: negative dimensions are not refused either: with bits-per-pixel
    8, a negative width and a negative height whose arithmetic stays
    within [int], the buffer is allocated with [height * width] bytes, no
    row is copied, and the remapping pass reads a byte that was never
    written. *)
Theorem negative_dimensions_unwritten (filecontents : list byte)
    (hdr : header) (outputlen wasted first : Z) :
  read_header filecontents = Ok hdr ->
  bitcount hdr = 8 ->
  width hdr < 0 ->
  height hdr < 0 ->
  int_mul (height hdr) (width hdr) = Ok outputlen ->
  wasted_pixels hdr = Ok wasted ->
  first_offset hdr wasted = Ok first ->
  main filecontents = Fault Uninitialised.
Proof.
  intros Hh H8 Hw Hht Hmul Hwasted Hfirst.
  rewrite (main_accepted _ _ Hh H8).
  unfold convert, extract.
  run Hmul. run Hwasted.
  apply int_mul_Ok in Hmul as [_ ->].
  assert (Hpos : 0 < height hdr * width hdr) by nia.
  cbv zeta. unfold malloc.
  run Hfirst.
  replace (Z.to_nat (height hdr)) with 0%nat by lia.
  cbn [copy_rows mbind exec_bind].
  destruct (Z.to_nat (height hdr * width hdr)) as [|n] eqn:En; [lia|].
  reflexivity.
Qed.

Lemma negative_dimensions_unwritten_witness :
  main (bmp_header 38 (-1) (-1) 8 4 ++ [xff; x10; x00; x00])
  = Fault Uninitialised.
Proof.
  apply (negative_dimensions_unwritten _ (Header 38 (-1) (-1) 8 4) 1 (-3) 46);
    try reflexivity; simpl; lia.
Defined.

(** ** What a completed run implies *)

Lemma extract_Ok_range filecontents hdr copied outputlen :
  extract filecontents hdr = Ok (copied, outputlen) ->
  (int_min <= height hdr * width hdr <= int_max) /\ height hdr <> 0.
Proof.
  unfold extract, wasted_pixels. intros H.
  bind_inv H. bind_inv H. bind_inv E0. bind_inv E0.
  apply int_mul_Ok in E as [Hr _].
  apply int_div_Ok in E0 as (Hne & _).
  auto.
Qed.

(** X9: an output is written only if the file holds the whole header,
    the height is not 0, [height * width] fits an [int], and every pixel of
    every row was read inside the file; the output then has
    [height * width] bytes, or none when that product is negative. *)
Theorem completed_run_reads_inside (filecontents output : list byte) :
  main filecontents = Ok (Done output) ->
  exists hdr,
    read_header filecontents = Ok hdr /\
    0x26 <= Z.of_nat (length filecontents) /\
    bitcount hdr = 8 /\
    height hdr <> 0 /\
    int_min <= height hdr * width hdr <= int_max /\
    Z.of_nat (length output) = Z.max 0 (height hdr * width hdr) /\
    (forall h c, 1 <= h <= height hdr -> 0 <= c < width hdr ->
       0 <= row_start hdr h + c < Z.of_nat (length filecontents)).
Proof.
  intros H.
  destruct (main_Done_inv _ _ H) as (hdr & Hh & H8 & Hc).
  destruct (convert_inv _ _ _ Hc) as (copied & outputlen & He & _ & _).
  destruct (extract_Ok_range _ _ _ _ He) as (Hr & Hne).
  destruct (convert_rows _ _ _ Hc) as (Hlen & Hrows).
  exists hdr.
  split; [exact Hh|]. split; [exact (read_header_length _ _ Hh)|].
  split; [exact H8|]. split; [exact Hne|]. split; [exact Hr|].
  split; [lia|].
  intros h c Hhr Hcr.
  destruct (Hrows h c Hhr Hcr) as (raw & Hraw & _).
  apply load_Ok in Hraw as [H0 Hl]. apply lookup_lt_Some in Hl. lia.
Qed.

Lemma completed_run_reads_inside_witness :
  exists hdr,
    read_header bmp_3x2 = Ok hdr /\
    0x26 <= Z.of_nat (length bmp_3x2) /\
    bitcount hdr = 8 /\
    height hdr <> 0 /\
    int_min <= height hdr * width hdr <= int_max /\
    Z.of_nat (length [x01; x01; x02; x00; x02; x01])
    = Z.max 0 (height hdr * width hdr) /\
    (forall h c, 1 <= h <= height hdr -> 0 <= c < width hdr ->
       0 <= row_start hdr h + c < Z.of_nat (length bmp_3x2)).
Proof.
  apply (completed_run_reads_inside bmp_3x2 [x01; x01; x02; x00; x02; x01]).
  reflexivity.
Defined.

(** ** The map of a valid file *)

Lemma expected_map_length filecontents hdr :
  0 <= width hdr * height hdr ->
  Z.of_nat (length (expected_map filecontents hdr))
  = width hdr * height hdr.
Proof.
  intros H. unfold expected_map. rewrite length_fmap, length_seq. lia.
Qed.

Lemma expected_map_lookup filecontents hdr (i : nat) :
  Z.of_nat i < width hdr * height hdr ->
  expected_map filecontents hdr !! i
  = Some (symbol (pixel filecontents hdr (Z.of_nat i))).
Proof.
  intros H. unfold expected_map.
  rewrite list_lookup_fmap, lookup_seq_lt by lia. reflexivity.
Qed.

Lemma valid_main_expected filecontents hdr :
  valid_bmp filecontents hdr ->
  main filecontents = Ok (Done (expected_map filecontents hdr)).
Proof.
  intros Hvalid.
  destruct (valid_convert _ _ Hvalid) as (output & Hc).
  destruct (convert_rows _ _ _ Hc) as (Hlen & Hrows).
  destruct Hvalid as [Hh H8 Hw Hht _ Hsize _ _ _].
  rewrite (main_accepted _ _ Hh H8), Hc. cbn [mbind exec_bind].
  do 2 f_equal. apply list_eq. intros i.
  destruct (Z_lt_dec (Z.of_nat i) (width hdr * height hdr)) as [Hi|Hi].
  - rewrite expected_map_lookup by exact Hi.
    pose proof (Z.mod_pos_bound (Z.of_nat i) (width hdr) Hw) as Hc0.
    pose proof (Z.div_mod (Z.of_nat i) (width hdr) ltac:(lia)) as Hdm.
    assert (0 <= Z.of_nat i / width hdr)
      by (apply Z.div_pos; lia).
    assert (Z.of_nat i / width hdr < height hdr)
      by (apply Z.div_lt_upper_bound; lia).
    destruct (Hrows (Z.of_nat i / width hdr + 1) (Z.of_nat i mod width hdr))
      as (raw & Hraw & Hout); [lia | lia |].
    rewrite (row_start_consistent _ _ Hsize) in Hraw.
    replace ((Z.of_nat i / width hdr + 1 - 1) * width hdr
             + Z.of_nat i mod width hdr) with (Z.of_nat i) in Hout by lia.
    rewrite Nat2Z.id in Hout. rewrite Hout.
    apply load_Ok in Hraw as [_ Hraw].
    unfold pixel.
    replace (height hdr - 1 - Z.of_nat i / width hdr)
      with (height hdr - (Z.of_nat i / width hdr + 1)) by lia.
    rewrite Hraw. reflexivity.
  - rewrite !lookup_ge_None_2; [reflexivity | |].
    + pose proof (expected_map_length filecontents hdr ltac:(nia)). lia.
    + lia.
Qed.

(** X10: for a valid file the output is known in closed form: [main]
    writes the list whose byte [i], for [i] below [width * height], is
    the symbol of the byte at column [i mod width] of the stored row
    [height - 1 - i / width]. *)
Theorem valid_bmp_map (filecontents : list byte) (hdr : header) :
  valid_bmp filecontents hdr ->
  main filecontents = Ok (Done (expected_map filecontents hdr)) /\
  Z.of_nat (length (expected_map filecontents hdr))
  = width hdr * height hdr.
Proof.
  intros Hvalid. split.
  - apply valid_main_expected. exact Hvalid.
  - apply expected_map_length. destruct Hvalid. nia.
Qed.

Lemma valid_bmp_map_witness :
  main bmp_3x2 = Ok (Done (expected_map bmp_3x2 (Header 38 3 2 8 8))) /\
  Z.of_nat (length (expected_map bmp_3x2 (Header 38 3 2 8 8))) = 3 * 2.
Proof.
  apply (valid_bmp_map bmp_3x2 (Header 38 3 2 8 8)).
  constructor; try (vm_compute; reflexivity);
    try (vm_compute; discriminate).
Defined.

(** X11: the output of a valid file depends on the header and on the
    symbols of the pixel bytes only: two valid files with the same header
    whose pixels have the same symbols give the same output, whatever
    their padding bytes, their palette and their other bytes are. *)
Theorem output_depends_on_pixels (f1 f2 : list byte) (hdr : header) :
  valid_bmp f1 hdr ->
  valid_bmp f2 hdr ->
  (forall r c, 0 <= r < height hdr -> 0 <= c < width hdr ->
     symbol <$> f1 !! Z.to_nat (stored_row hdr r + c)
     = symbol <$> f2 !! Z.to_nat (stored_row hdr r + c)) ->
  main f1 = main f2.
Proof.
  intros V1 V2 Hpix.
  rewrite (valid_main_expected _ _ V1), (valid_main_expected _ _ V2).
  do 2 f_equal. unfold expected_map.
  apply list_fmap_ext. intros k i Hk.
  apply lookup_seq in Hk as [-> Hlt]. cbn [Nat.add].
  destruct V1 as [_ _ Hw Hht _ _ _ _ _].
  pose proof (Z.mod_pos_bound (Z.of_nat k) (width hdr) Hw) as Hc0.
  assert (0 <= Z.of_nat k / width hdr) by (apply Z.div_pos; lia).
  assert (Z.of_nat k / width hdr < height hdr)
    by (apply Z.div_lt_upper_bound; lia).
  specialize (Hpix (height hdr - 1 - Z.of_nat k / width hdr)
                (Z.of_nat k mod width hdr) ltac:(lia) Hc0).
  unfold pixel.
  destruct (f1 !! _) as [b1|], (f2 !! _) as [b2|]; cbn in Hpix |- *;
    congruence.
Qed.

Lemma output_depends_on_pixels_witness :
  main bmp_3x2
  = main (bmp_header 38 3 2 8 8
            ++ [xff; x20; x00; x00; x00; x00; x99; xff]).
Proof.
  apply (output_depends_on_pixels _ _ (Header 38 3 2 8 8)).
  - constructor; try (vm_compute; reflexivity);
      try (vm_compute; discriminate).
  - constructor; try (vm_compute; reflexivity);
      try (vm_compute; discriminate).
  - intros r c Hr Hc. cbn [height width] in Hr, Hc.
    assert (r = 0 \/ r = 1) as [->| ->] by lia;
      (assert (c = 0 \/ c = 1 \/ c = 2) as [->|[->| ->]] by lia);
      reflexivity.
Defined.

(** ** The format check, byte by byte *)

Lemma byte_val_inj_const b (z : N) (b' : byte) :
  Byte.of_N z = Some b' -> byte_val b = Z.of_N z -> b = b'.
Proof.
  unfold byte_val. intros Hof Hv. apply N2Z.inj in Hv.
  pose proof (Byte.of_to_N b) as Hb. rewrite Hv in Hb. congruence.
Qed.

Lemma bitcount_eight filecontents :
  0x26 <= Z.of_nat (length filecontents) ->
  le_value filecontents 0x1c 2 = 8 <->
  filecontents !! Z.to_nat 0x1c = Some x08 /\
  filecontents !! Z.to_nat 0x1d = Some x00.
Proof.
  intros Hlen.
  destruct (lookup_lt_is_Some_2 filecontents (Z.to_nat 0x1c)) as [b0 H0];
    [lia|].
  destruct (lookup_lt_is_Some_2 filecontents (Z.to_nat 0x1d)) as [b1 H1];
    [lia|].
  cbn [le_value]. unfold byte_at.
  change (Z.to_nat (0x1c + Z.of_nat 0)) with (Z.to_nat 0x1c).
  change (Z.to_nat (0x1c + Z.of_nat 1)) with (Z.to_nat 0x1d).
  rewrite H0, H1.
  change (2 ^ (8 * Z.of_nat 0)) with 1. change (2 ^ (8 * Z.of_nat 1)) with 256.
  pose proof (byte_val_bound b0). pose proof (byte_val_bound b1).
  split.
  - intros Hv.
    assert (byte_val b0 = Z.of_N 8) by (simpl; lia).
    assert (byte_val b1 = Z.of_N 0) by (simpl; lia).
    rewrite (byte_val_inj_const b0 8 x08), (byte_val_inj_const b1 0 x00)
      by (reflexivity || assumption).
    auto.
  - intros [[= ->] [= ->]]. reflexivity.
Qed.

(** X12: a file that holds the whole header is rejected by the format
    check unless the byte at [0x1C] is [0x08] and the byte at [0x1D] is
    [0x00]. *)
Theorem rejected_iff_bytes (filecontents : list byte) :
  0x26 <= Z.of_nat (length filecontents) <= int_max ->
  main filecontents = Ok NeedsColors <->
  ~ (filecontents !! Z.to_nat 0x1c = Some x08 /\
     filecontents !! Z.to_nat 0x1d = Some x00).
Proof.
  intros Hlen.
  pose proof (read_header_total filecontents Hlen) as Hh.
  rewrite <- (bitcount_eight filecontents (proj1 Hlen)).
  pose proof (le_value_short filecontents 0x1c 2 ltac:(lia)) as Hs.
  assert (Hbits : to_signed (le_value filecontents 0x1c 2)
                  = le_value filecontents 0x1c 2).
  { apply to_signed_small. change (2 ^ 31) with 2147483648. lia. }
  split.
  - intros Hmain Hv.
    apply (accepted_not_rejected _ _ Hh); [|exact Hmain].
    cbn [bitcount]. rewrite Hbits. exact Hv.
  - intros Hne. apply (main_not_accepted _ _ Hh).
    apply Z.eqb_neq. cbn [bitcount]. rewrite Hbits. exact Hne.
Qed.

Lemma rejected_iff_bytes_witness :
  main (bmp_header 38 2 2 24 4) = Ok NeedsColors <->
  ~ (bmp_header 38 2 2 24 4 !! Z.to_nat 0x1c = Some x08 /\
     bmp_header 38 2 2 24 4 !! Z.to_nat 0x1d = Some x00).
Proof.
  apply (rejected_iff_bytes (bmp_header 38 2 2 24 4)).
  vm_compute. split; discriminate.
Defined.

(** ** [main] on a top-down image *)


